(** * pkg/blobcache: the blob cache wrapped around an image reference

    A shallow embedding of [pkg/blobcache/blobcache.go].  The operating
    system is an interface ([OS]): the file-system calls the package makes
    ([os.Stat], [os.Open], [Readdirnames], [os.RemoveAll], [filepath.Join])
    are interpreted over any implementation of it, in a state monad that
    threads the file system and records every call in a trace. *)

From Stdlib Require Import String Ascii List ZArith Bool Lia.
Import ListNotations.

Local Open Scope string_scope.
Local Open Scope Z_scope.

(** ** Go base types *)

(** [int64] values are integers in [min_int64, max_int64]; [wrap64] is the
    two's complement wrap-around of the arithmetic on them. *)
Definition int64 := Z.
Definition min_int64 : Z := - 2 ^ 63.
Definition max_int64 : Z := 2 ^ 63 - 1.
Definition wrap64 (z : Z) : int64 := (z + 2 ^ 63) mod 2 ^ 64 - 2 ^ 63.

Module syscall.
(** [syscall.Errno]: the error number of a failed system call. *)
Definition Errno := Z.
Definition EPERM : Errno := 1.
Definition ENOENT : Errno := 2.
Definition EIO : Errno := 5.
Definition EACCES : Errno := 13.
Definition ENOTDIR : Errno := 20.
End syscall.

(** Arguments of a format string ([fmt.Errorf], [perrors.Wrapf]); the
    formatted text is kept symbolic as the format and its arguments. *)
Inductive fmtarg : Type :=
| ArgString (s : string)
| ArgInt (z : Z).

(** Go's [error] values, as far as this package sees them: [nil] is [None]
    of [option error]. *)
Inductive error : Type :=
| PathError (Op Path : string) (Err : syscall.Errno)
| errorString (s : string)
| fmtError (format : string) (args : list fmtarg)
| withStack (cause : error) (format : string) (args : list fmtarg).

Module fmt.
Definition Errorf (format : string) (args : list fmtarg) : option error :=
  Some (fmtError format args).
End fmt.

Module perrors.
(** [Wrap] and [Wrapf] of github.com/pkg/errors: a nil error stays nil. *)
Definition Wrap (err : option error) (message : string) : option error :=
  match err with
  | None => None
  | Some e => Some (withStack e message [])
  end.

Definition Wrapf (err : option error) (format : string) (args : list fmtarg)
  : option error :=
  match err with
  | None => None
  | Some e => Some (withStack e format args)
  end.

(** [Cause]: the innermost error of a chain of wrappers. *)
Fixpoint Cause (e : error) : error :=
  match e with
  | withStack c _ _ => Cause c
  | _ => e
  end.
End perrors.

(** [err == nil]. *)
Definition is_nil (err : option error) : bool :=
  match err with
  | None => true
  | Some _ => false
  end.

(** An error produced by [perrors.Wrap] or [perrors.Wrapf]. *)
Definition is_wrapped (err : option error) : bool :=
  match err with
  | Some (withStack _ _ _) => true
  | _ => false
  end.

Module digest.
(** [digest.Digest] is a string type; [String] is the conversion. *)
Definition Digest := string.
Definition String (d : Digest) : string := d.

(** Well-formed digests, after go-digest's anchored pattern
    [^[a-z0-9]+(?:[.+_-][a-z0-9]+)*:[a-zA-Z0-9=_-]+$]: an algorithm of
    lower-case alphanumeric components joined by single separators, a colon,
    and a non-empty encoded part. *)
Definition in_range (lo hi : nat) (c : ascii) : bool :=
  (Nat.leb lo (nat_of_ascii c) && Nat.leb (nat_of_ascii c) hi)%bool.

Definition is_lower_digit (c : ascii) : bool :=
  in_range 97 122 c || in_range 48 57 c.

Definition is_separator (c : ascii) : bool :=
  Ascii.eqb c "." || Ascii.eqb c "+" || Ascii.eqb c "_" || Ascii.eqb c "-".

Definition is_encoded (c : ascii) : bool :=
  in_range 97 122 c || in_range 65 90 c || in_range 48 57 c
  || Ascii.eqb c "=" || Ascii.eqb c "_" || Ascii.eqb c "-".

Fixpoint encoded_ok (s : string) : bool :=
  match s with
  | EmptyString => true
  | String.String c s' => is_encoded c && encoded_ok s'
  end.

(** The pattern as an automaton; [alnum] tells whether the character just
    read was alphanumeric, so that a separator or the colon may follow. *)
Fixpoint well_formed_from (alnum : bool) (s : string) : bool :=
  match s with
  | EmptyString => false
  | String.String c s' =>
      if Ascii.eqb c ":" then
        alnum && negb (String.eqb s' "") && encoded_ok s'
      else if is_lower_digit c then well_formed_from true s'
      else if is_separator c then alnum && well_formed_from false s'
      else false
  end.

Definition well_formed (d : Digest) : bool := well_formed_from false d.
End digest.

(** ** The operating system *)

(** [os.FileInfo], of which only [Size()] is read. *)
Record FileInfo : Type := { fi_Size : int64 }.

(** The calls the package makes, as recorded in the trace. *)
Inductive Syscall : Type :=
| EvStat (name : string)
| EvOpen (name : string)
| EvReaddirnames (name : string) (n : Z)
| EvRemoveAll (path : string)
| EvClose (name : string).

Definition is_stat (ev : Syscall) : bool :=
  match ev with EvStat _ => true | _ => false end.

Definition is_removeall (ev : Syscall) : bool :=
  match ev with EvRemoveAll _ => true | _ => false end.

(** What an operating system gives the package.  [sys_stat], [sys_open] and
    [sys_readdirnames] read the file system; [sys_removeall] changes it,
    also when it fails half way. *)
Class OS (FS : Type) : Type := {
  sys_stat : FS -> string -> syscall.Errno + FileInfo;
  sys_open : FS -> string -> option syscall.Errno;
  sys_readdirnames : FS -> string -> Z -> list string * option error;
  sys_removeall : FS -> string -> FS * option error;
  path_join : string -> string -> string
}.

(** A path at which [stat] succeeds. *)
Definition visible {FS : Type} `{OS FS} (fs : FS) (path : string) : bool :=
  match sys_stat fs path with
  | inr _ => true
  | inl _ => false
  end.

(** What removal means on a file system: a path whose removal succeeded is
    no longer there, and a removal, successful or not, brings nothing back. *)
Class OSLaws (FS : Type) `{OS FS} : Prop := {
  removeall_removes : forall fs fs' path,
    sys_removeall fs path = (fs', None) -> visible fs' path = false;
  removeall_creates_nothing : forall fs path path',
    visible fs path' = false ->
    visible (fst (sys_removeall fs path)) path' = false
}.

Section Blobcache.

Context {FS : Type} `{OS FS}.

(** The remote side of the wrapped reference, and the arguments passed
    through to it. *)
Variables (Remote Ctx SystemContext Named : Type).

(** *** The state monad of file-system effects *)

Record World : Type := { w_fs : FS; w_trace : list Syscall }.

Definition M (A : Type) : Type := World -> A * World.

Definition ret {A} (a : A) : M A := fun w => (a, w).

Definition bind {A B} (m : M A) (k : A -> M B) : M B :=
  fun w => let (a, w') := m w in k a w'.

Notation "x <- c ;; k" := (bind c (fun x => k))
  (at level 61, c at next level, right associativity).
Notation "' p <- c ;; k" := (bind c (fun x => match x with p => k end))
  (at level 61, p pattern, c at next level, right associativity).

Definition log (ev : Syscall) (w : World) : World :=
  {| w_fs := w_fs w; w_trace := w_trace w ++ [ev] |}.

(** The calls a computation adds to the trace. *)
Definition events_of {A} (m : M A) (w : World) : list Syscall :=
  skipn (length (w_trace w)) (w_trace (snd (m w))).

(** *** Package os and path/filepath over the interface *)

(** [os.Stat]: on failure the error is a [*PathError] of operation "stat"
    on the name that was asked for. *)
Definition os_Stat (name : string) : M (option FileInfo * option error) :=
  fun w =>
    (match sys_stat (w_fs w) name with
     | inr fileInfo => (Some fileInfo, None)
     | inl errno => (None, Some (PathError "stat" name errno))
     end, log (EvStat name) w).

(** [os.IsNotExist]: looks under a [*PathError] for ENOENT; false on nil
    and on every other error. *)
Definition os_IsNotExist (err : option error) : bool :=
  match err with
  | Some (PathError _ _ errno) => errno =? syscall.ENOENT
  | _ => false
  end.

(** [fileInfo.Size()] on what [os.Stat] returned; the [FileInfo] is nil
    only next to a non-nil error, where the size is not asked for. *)
Definition FileInfo_Size (fileInfo : option FileInfo) : int64 :=
  match fileInfo with
  | Some fi => fi_Size fi
  | None => 0
  end.

(** An open directory, [*os.File]: the name it was opened under. *)
Definition File : Type := string.

Definition os_Open (name : string) : M (option File * option error) :=
  fun w =>
    (match sys_open (w_fs w) name with
     | None => (Some name, None)
     | Some errno => (None, Some (PathError "open" name errno))
     end, log (EvOpen name) w).

Definition File_Readdirnames (f : File) (n : Z)
  : M (list string * option error) :=
  fun w => (sys_readdirnames (w_fs w) f n, log (EvReaddirnames f n) w).

Definition File_Close (f : File) : M unit :=
  fun w => (tt, log (EvClose f) w).

Definition os_RemoveAll (path : string) : M (option error) :=
  fun w =>
    let (fs', err) := sys_removeall (w_fs w) path in
    (err, {| w_fs := fs'; w_trace := w_trace w ++ [EvRemoveAll path] |}).

Definition filepath_Join (dir name : string) : string := path_join dir name.

(** Removing [paths] one after the other: the file system that is left
    when every removal succeeds. *)
Fixpoint remove_all (fs : FS) (paths : list string) : option FS :=
  match paths with
  | [] => Some fs
  | path :: paths' =>
      match sys_removeall fs path with
      | (fs', None) => remove_all fs' paths'
      | (_, Some _) => None
      end
  end.

(** *** Package types *)

(** Modelled from the spec: [types.LayerCompression], declared outside this
    file; an integer type with three recognised values, [PreserveOriginal],
    [Decompress] and [Compress], any other integer being unrecognised. *)
Definition LayerCompression : Type := Z.
Definition PreserveOriginal : LayerCompression := 0.
Definition Decompress : LayerCompression := 1.
Definition Compress : LayerCompression := 2.

(** Modelled from the spec: [types.BlobInfo], declared outside this file;
    the spec's blob descriptor of a digest, a size (-1 when unknown) and a
    config flag.  The functions of this file read [Digest] and [Size]. *)
Record BlobInfo : Type := {
  Digest : digest.Digest;
  Size : int64;
  IsConfig : bool
}.

(** [types.ImageTransport], of which [Name()] is called. *)
Record ImageTransport : Type := { Name : string }.

(** Modelled from the spec: [types.ImageReference], declared outside this
    file; the capability set of the wrapped remote endpoint.  The identity
    methods are accessors; [DeleteImage] acts on the remote side. *)
Record ImageReference : Type := {
  ref_Transport : ImageTransport;
  ref_StringWithinTransport : string;
  ref_DockerReference : option Named;
  ref_PolicyConfigurationIdentity : string;
  ref_PolicyConfigurationNamespaces : list string;
  ref_DeleteImage : Ctx -> option SystemContext -> Remote -> option error * Remote
}.

(** [transports.ImageName]: the transport's name, a colon, and the
    reference's string within the transport. *)
Definition transports_ImageName (ref : ImageReference) : string :=
  Name (ref_Transport ref) ++ ":" ++ ref_StringWithinTransport ref.

(** *** Package blobcache *)

Definition compressedNote : string := ".compressed".
Definition decompressedNote : string := ".decompressed".

Record BlobCache : Type := {
  reference : ImageReference;
  directory : string;
  compress : LayerCompression
}.

Definition makeFilename (blobSum : digest.Digest) (isConfig : bool) : string :=
  if isConfig then digest.String blobSum ++ ".config"
  else digest.String blobSum.

Definition NewBlobCache (ref : ImageReference) (directory : string)
  (compress : LayerCompression) : M (option BlobCache * option error) :=
  if String.eqb directory "" then
    ret (None,
         fmt.Errorf
           "error creating cache around reference %q: no directory specified"
           [ArgString (transports_ImageName ref)])
  else if (compress =? Compress) || (compress =? Decompress)
          || (compress =? PreserveOriginal) then
    ret (Some {| reference := ref; directory := directory;
                 compress := compress |}, None)
  else
    ret (None, fmt.Errorf "unhandled LayerCompression value %v"
                 [ArgInt compress]).

Definition Transport (b : BlobCache) : ImageTransport :=
  ref_Transport (reference b).

Definition StringWithinTransport (b : BlobCache) : string :=
  ref_StringWithinTransport (reference b).

Definition DockerReference (b : BlobCache) : option Named :=
  ref_DockerReference (reference b).

Definition PolicyConfigurationIdentity (b : BlobCache) : string :=
  ref_PolicyConfigurationIdentity (reference b).

Definition PolicyConfigurationNamespaces (b : BlobCache) : list string :=
  ref_PolicyConfigurationNamespaces (reference b).

Definition DeleteImage (b : BlobCache) (ctx : Ctx)
  (sys : option SystemContext) : Remote -> option error * Remote :=
  ref_DeleteImage (reference b) ctx sys.

(** [var _ types.ImageReference = &BlobCache{}]: the cache seen through the
    interface, as [transports.ImageName] sees it in [ClearCache]. *)
Definition BlobCache_ImageReference (b : BlobCache) : ImageReference :=
  {| ref_Transport := Transport b;
     ref_StringWithinTransport := StringWithinTransport b;
     ref_DockerReference := DockerReference b;
     ref_PolicyConfigurationIdentity := PolicyConfigurationIdentity b;
     ref_PolicyConfigurationNamespaces := PolicyConfigurationNamespaces b;
     ref_DeleteImage := DeleteImage b |}.

(** The body of the loop of [HasBlob] over the filename forms still to be
    probed. *)
Fixpoint HasBlob_forms (b : BlobCache) (blobinfo : BlobInfo)
  (forms : list bool) : M (bool * int64 * option error) :=
  match forms with
  | [] => ret (false, -1, None)
  | isConfig :: forms' =>
      let filename :=
        filepath_Join (directory b) (makeFilename (Digest blobinfo) isConfig) in
      '(fileInfo, err) <- os_Stat filename ;;
      if is_nil err
         && ((Size blobinfo =? -1) || (Size blobinfo =? FileInfo_Size fileInfo))
      then ret (true, FileInfo_Size fileInfo, None)
      else if negb (os_IsNotExist err) then
        ret (false, -1, perrors.Wrap err "checking size")
      else HasBlob_forms b blobinfo forms'
  end.

Definition HasBlob (b : BlobCache) (blobinfo : BlobInfo)
  : M (bool * int64 * option error) :=
  if String.eqb (Digest blobinfo) "" then ret (false, -1, None)
  else HasBlob_forms b blobinfo [false; true].

Definition Directory (b : BlobCache) : string := directory b.

(** The path [HasBlob] stats for a digest in one of its two forms. *)
Definition blobpath (b : BlobCache) (d : digest.Digest) (isConfig : bool)
  : string :=
  filepath_Join (directory b) (makeFilename d isConfig).

(** The paths [ClearCache] removes for the names that were listed. *)
Definition paths (b : BlobCache) (names : list string) : list string :=
  map (filepath_Join (directory b)) names.

(** The error [ClearCache] returns when a removal fails with [e]. *)
Definition clearing_error (b : BlobCache) (e : error) : error :=
  withStack e "clearing cache for %q"
    [ArgString (transports_ImageName (BlobCache_ImageReference b))].

(** The loop of [ClearCache] over the names that were listed. *)
Fixpoint ClearCache_names (b : BlobCache) (names : list string)
  : M (option error) :=
  match names with
  | [] => ret None
  | name :: names' =>
      let pathname := filepath_Join (directory b) name in
      err <- os_RemoveAll pathname ;;
      match err with
      | Some _ =>
          ret (perrors.Wrapf err "clearing cache for %q"
                 [ArgString (transports_ImageName (BlobCache_ImageReference b))])
      | None => ClearCache_names b names'
      end
  end.

(** [ClearCache]; the deferred [f.Close()] runs on every return that
    follows the successful open. *)
Definition ClearCache (b : BlobCache) : M (option error) :=
  '(f, err) <- os_Open (directory b) ;;
  match err, f with
  | None, Some f =>
      result <-
        ('(names, err) <- File_Readdirnames f (-1) ;;
         match err with
         | Some _ =>
             ret (perrors.Wrapf err "error reading directory %q"
                    [ArgString (directory b)])
         | None => ClearCache_names b names
         end) ;;
      _ <- File_Close f ;;
      ret result
  | _, _ => ret err
  end.

End Blobcache.

Arguments World FS : clear implicits.
Arguments M FS A : clear implicits.
Arguments ref_Transport {Remote Ctx SystemContext Named} _.
Arguments ref_StringWithinTransport {Remote Ctx SystemContext Named} _.
Arguments ref_DockerReference {Remote Ctx SystemContext Named} _.
Arguments ref_PolicyConfigurationIdentity {Remote Ctx SystemContext Named} _.
Arguments ref_PolicyConfigurationNamespaces {Remote Ctx SystemContext Named} _.
Arguments ref_DeleteImage {Remote Ctx SystemContext Named} _ _ _ _.
Arguments transports_ImageName {Remote Ctx SystemContext Named} _.
Arguments reference {Remote Ctx SystemContext Named} _.
Arguments directory {Remote Ctx SystemContext Named} _.
Arguments compress {Remote Ctx SystemContext Named} _.
Arguments Build_BlobCache {Remote Ctx SystemContext Named} _ _ _.
Arguments events_of {FS A} _ _.
Arguments remove_all {FS _} _ _.
Arguments NewBlobCache {FS Remote Ctx SystemContext Named} _ _ _ _.
Arguments Transport {Remote Ctx SystemContext Named} _.
Arguments StringWithinTransport {Remote Ctx SystemContext Named} _.
Arguments DockerReference {Remote Ctx SystemContext Named} _.
Arguments PolicyConfigurationIdentity {Remote Ctx SystemContext Named} _.
Arguments PolicyConfigurationNamespaces {Remote Ctx SystemContext Named} _.
Arguments DeleteImage {Remote Ctx SystemContext Named} _ _ _ _.
Arguments BlobCache_ImageReference {Remote Ctx SystemContext Named} _.
Arguments HasBlob_forms {FS _ Remote Ctx SystemContext Named} _ _ _ _.
Arguments HasBlob {FS _ Remote Ctx SystemContext Named} _ _ _.
Arguments Directory {Remote Ctx SystemContext Named} _.
Arguments blobpath {FS _ Remote Ctx SystemContext Named} _ _ _.
Arguments paths {FS _ Remote Ctx SystemContext Named} _ _.
Arguments clearing_error {Remote Ctx SystemContext Named} _ _.
Arguments ClearCache_names {FS _ Remote Ctx SystemContext Named} _ _ _.
Arguments ClearCache {FS _ Remote Ctx SystemContext Named} _ _.

(** ** A simulated file system

    One implementation of [OS], on which the package can be run: a list of
    directories, each entry a file of some size in one of them, and a table
    of injected failures.  [Join] follows [filepath.Join] and [Clean] of
    path/filepath on Unix. *)
Module Sim.

Inductive Op : Type := OpStat | OpOpen | OpReaddir | OpRemove.

Definition Op_eqb (a b : Op) : bool :=
  match a, b with
  | OpStat, OpStat | OpOpen, OpOpen | OpReaddir, OpReaddir
  | OpRemove, OpRemove => true
  | _, _ => false
  end.

Record Entry : Type := { e_dir : string; e_name : string; e_size : int64 }.

Record Fault : Type := { f_op : Op; f_path : string; f_errno : syscall.Errno }.

Record T : Type := {
  dirs : list string;
  entries : list Entry;
  faults : list Fault
}.

(** The components of a path between slashes. *)
Fixpoint split_slash (cur : string) (s : string) : list string :=
  match s with
  | EmptyString => [cur]
  | String c s' =>
      if Ascii.eqb c "/" then cur :: split_slash "" s'
      else split_slash (cur ++ String c "") s'
  end.

Definition clean_step (rooted : bool) (stack : list string) (c : string)
  : list string :=
  if String.eqb c "" || String.eqb c "." then stack
  else if String.eqb c ".." then
    match stack with
    | top :: rest => if String.eqb top ".." then c :: stack else rest
    | [] => if rooted then [] else [c]
    end
  else c :: stack.

Definition Clean (path : string) : string :=
  if String.eqb path "" then "."
  else
    let rooted := String.prefix "/" path in
    let comps := rev (fold_left (clean_step rooted) (split_slash "" path) []) in
    let out := (if rooted then "/" else "") ++ String.concat "/" comps in
    if String.eqb out "" then "." else out.

Definition Join (a b : string) : string :=
  if negb (String.eqb a "") then Clean (a ++ "/" ++ b)
  else if negb (String.eqb b "") then Clean b
  else "".

Definition e_path (e : Entry) : string := Join (e_dir e) (e_name e).

Definition fault (fs : T) (op : Op) (path : string) : option syscall.Errno :=
  match find (fun f => Op_eqb (f_op f) op && String.eqb (f_path f) path)
             (faults fs) with
  | Some f => Some (f_errno f)
  | None => None
  end.

Definition is_dir (fs : T) (path : string) : bool :=
  existsb (String.eqb path) (dirs fs).

Definition stat (fs : T) (path : string) : syscall.Errno + FileInfo :=
  match fault fs OpStat path with
  | Some errno => inl errno
  | None =>
      match find (fun e => String.eqb (e_path e) path) (entries fs) with
      | Some e => inr {| fi_Size := e_size e |}
      | None =>
          if is_dir fs path then inr {| fi_Size := 4096 |}
          else inl syscall.ENOENT
      end
  end.

Definition open (fs : T) (path : string) : option syscall.Errno :=
  match fault fs OpOpen path with
  | Some errno => Some errno
  | None => if is_dir fs path then None else Some syscall.ENOENT
  end.

Definition readdirnames (fs : T) (path : string) (n : Z)
  : list string * option error :=
  match fault fs OpReaddir path with
  | Some errno => ([], Some (PathError "readdirent" path errno))
  | None =>
      (map e_name (filter (fun e => String.eqb (e_dir e) path) (entries fs)),
       None)
  end.

Definition removeall (fs : T) (path : string) : T * option error :=
  match fault fs OpRemove path with
  | Some errno => (fs, Some (PathError "unlinkat" path errno))
  | None =>
      ({| dirs := filter (fun d => negb (String.eqb d path)) (dirs fs);
          entries :=
            filter (fun e => negb (String.eqb (e_path e) path)
                             && negb (String.eqb (e_dir e) path))
                   (entries fs);
          faults := faults fs |}, None)
  end.

#[global] Instance os : OS T := {
  sys_stat := stat;
  sys_open := open;
  sys_readdirnames := readdirnames;
  sys_removeall := removeall;
  path_join := Join
}.

End Sim.

(** ** Test fixtures on the simulated file system *)
Module Fixture.

Definition docker : ImageTransport := {| Name := "docker" |}.

(** A remote endpoint whose state counts the deletions asked of it. *)
Definition busybox : ImageReference nat unit unit string :=
  {| ref_Transport := docker;
     ref_StringWithinTransport := "//busybox:latest";
     ref_DockerReference := Some "docker.io/library/busybox:latest";
     ref_PolicyConfigurationIdentity := "docker.io/library/busybox:latest";
     ref_PolicyConfigurationNamespaces :=
       ["docker.io/library/busybox"; "docker.io/library"; "docker.io"];
     ref_DeleteImage := fun _ _ n => (None, S n) |}.

Definition cache : BlobCache nat unit unit string :=
  {| reference := busybox; directory := "/cache"; compress := Compress |}.

Definition layer : digest.Digest := "sha256:ab".
Definition other : digest.Digest := "sha256:cd".

Definition files : list Sim.Entry :=
  [ {| Sim.e_dir := "/cache"; Sim.e_name := "sha256:ab"; Sim.e_size := 5 |};
    {| Sim.e_dir := "/cache"; Sim.e_name := "sha256:ab.config";
       Sim.e_size := 7 |};
    {| Sim.e_dir := "/cache"; Sim.e_name := "sha256:cd"; Sim.e_size := 11 |} ].

Definition disk (faults : list Sim.Fault) : World Sim.T :=
  {| w_fs := {| Sim.dirs := ["/cache"]; Sim.entries := files;
                Sim.faults := faults |};
     w_trace := [] |}.

Definition healthy : World Sim.T := disk [].

Definition stat_denied : World Sim.T :=
  disk [ {| Sim.f_op := Sim.OpStat; Sim.f_path := "/cache/sha256:ab";
            Sim.f_errno := syscall.EACCES |} ].

Definition open_denied : World Sim.T :=
  disk [ {| Sim.f_op := Sim.OpOpen; Sim.f_path := "/cache";
            Sim.f_errno := syscall.EACCES |} ].

Definition list_broken : World Sim.T :=
  disk [ {| Sim.f_op := Sim.OpReaddir; Sim.f_path := "/cache";
            Sim.f_errno := syscall.EIO |} ].

Definition remove_denied : World Sim.T :=
  disk [ {| Sim.f_op := Sim.OpRemove; Sim.f_path := "/cache/sha256:ab.config";
            Sim.f_errno := syscall.EPERM |} ].

End Fixture.

(** A second cache directory: one digest stored in its config form only,
    and one digest not stored at all. *)
Module Scenario.

Definition config_digest : digest.Digest := "sha256:ef".
Definition absent_digest : digest.Digest := "sha256:00".

Definition config_only : World Sim.T :=
  {| w_fs := {| Sim.dirs := ["/cache"];
                Sim.entries :=
                  [ {| Sim.e_dir := "/cache"; Sim.e_name := "sha256:ef.config";
                       Sim.e_size := 9 |} ];
                Sim.faults := [] |};
     w_trace := [] |}.

(** The config form of the layer cannot be stat-ed, the plain form is gone. *)
Definition config_denied : World Sim.T :=
  {| w_fs := {| Sim.dirs := ["/cache"];
                Sim.entries :=
                  [ {| Sim.e_dir := "/cache"; Sim.e_name := "sha256:ef.config";
                       Sim.e_size := 9 |} ];
                Sim.faults :=
                  [ {| Sim.f_op := Sim.OpStat;
                       Sim.f_path := "/cache/sha256:ef.config";
                       Sim.f_errno := syscall.EIO |} ] |};
     w_trace := [] |}.

End Scenario.

(** * Properties *)

Lemma skipn_length_app {A} (t l : list A) : skipn (length t) (t ++ l) = l.
Proof. induction t as [|a t IH]; simpl; auto. Qed.

Lemma wrap64_succ (n : Z) :
  0 <= n <= max_int64 -> wrap64 (n + 1) <> -1 /\ wrap64 (n + 1) <> n.
Proof.
  unfold max_int64, wrap64. intros Hn.
  change (2 ^ 64) with 18446744073709551616.
  change (2 ^ 63) with 9223372036854775808 in *.
  destruct (Z.eq_dec n 9223372036854775807) as [-> | Hne].
  - vm_compute. split; discriminate.
  - rewrite Z.mod_small by lia. lia.
Qed.

Section HasBlobProofs.

Context {FS : Type} `{OS FS} {Remote Ctx SystemContext Named : Type}.

Implicit Types (b : BlobCache Remote Ctx SystemContext Named).
Implicit Types (blobinfo : BlobInfo) (w : World FS).

(** One turn of the loop, by the outcome of the stat. *)
Lemma HasBlob_forms_step b blobinfo isConfig forms w :
  HasBlob_forms b blobinfo (isConfig :: forms) w =
  let filename := blobpath b (Digest blobinfo) isConfig in
  let w1 := log (EvStat filename) w in
  match sys_stat (w_fs w) filename with
  | inr fileInfo =>
      if (Size blobinfo =? -1) || (Size blobinfo =? fi_Size fileInfo)
      then (true, fi_Size fileInfo, None, w1)
      else (false, -1, None, w1)
  | inl errno =>
      if errno =? syscall.ENOENT then HasBlob_forms b blobinfo forms w1
      else (false, -1,
            Some (withStack (PathError "stat" filename errno)
                    "checking size" []), w1)
  end.
Proof.
  unfold blobpath. cbn [HasBlob_forms]. unfold bind, os_Stat.
  destruct (sys_stat (w_fs w) _) as [errno|fileInfo]; cbn.
  - destruct (errno =? syscall.ENOENT); reflexivity.
  - destruct ((Size blobinfo =? -1) || (Size blobinfo =? fi_Size fileInfo));
      reflexivity.
Qed.

Lemma HasBlob_nonempty b blobinfo w :
  Digest blobinfo <> "" ->
  HasBlob b blobinfo w = HasBlob_forms b blobinfo [false; true] w.
Proof.
  intros Hd. unfold HasBlob.
  destruct (String.eqb_spec (Digest blobinfo) ""); [contradiction|reflexivity].
Qed.

Lemma log_fs (ev : Syscall) w : w_fs (log ev w) = w_fs w.
Proof. reflexivity. Qed.

(** C1: for a digest [d] whose plain (non-config) entry is stored with byte
    length [n], [HasBlob] answers [(true, n, nil)] when asked with size [n],
    [(false, -1, nil)] when asked with size [n+1], and [(true, n, nil)] when
    asked with the unknown size [-1].  A stored entry has a non-empty digest:
    the path of the empty digest is the cache directory itself. *)
Theorem HasBlob_stored_blob b w (d : digest.Digest) (n : int64) :
  d <> "" ->
  0 <= n <= max_int64 ->
  sys_stat (w_fs w) (filepath_Join (directory b) (makeFilename d false))
    = inr {| fi_Size := n |} ->
  fst (HasBlob b {| Digest := d; Size := n; IsConfig := false |} w)
    = (true, n, None)
  /\ fst (HasBlob b {| Digest := d; Size := wrap64 (n + 1);
                       IsConfig := false |} w)
    = (false, -1, None)
  /\ fst (HasBlob b {| Digest := d; Size := -1; IsConfig := false |} w)
    = (true, n, None).
Proof.
  intros Hd Hn Hstat.
  destruct (wrap64_succ n Hn) as [Hm1 Hne].
  rewrite !HasBlob_nonempty by exact Hd.
  rewrite !HasBlob_forms_step. unfold blobpath. cbn [Digest Size].
  rewrite Hstat. cbn [fi_Size].
  rewrite Z.eqb_refl, orb_true_r.
  apply Z.eqb_neq in Hm1, Hne. rewrite Hm1, Hne.
  repeat split.
Qed.

(** C3: with the empty digest, whatever the size, the config flag and the
    cache directory hold, [HasBlob] answers [(false, -1, nil)] and makes no
    call to the file system: the world, trace included, is the one it was
    given. *)
Theorem HasBlob_empty_digest b w (size : int64) (isConfig : bool) :
  HasBlob b {| Digest := ""; Size := size; IsConfig := isConfig |} w
    = (false, -1, None, w)
  /\ events_of (HasBlob b {| Digest := ""; Size := size;
                             IsConfig := isConfig |}) w = [].
Proof.
  unfold events_of, HasBlob, ret. cbn.
  split; [reflexivity|].
  rewrite <- (app_nil_r (w_trace w)) at 2. apply skipn_length_app.
Qed.

(** C10: for a digest stored in both forms, [HasBlob] asked with size [-1]
    answers with the size of the plain entry, the plain form being the
    first one probed and the only one. *)
Theorem HasBlob_plain_first b w (d : digest.Digest) (s s' : int64)
  (isConfig : bool) :
  d <> "" ->
  sys_stat (w_fs w) (filepath_Join (directory b) (makeFilename d false))
    = inr {| fi_Size := s |} ->
  sys_stat (w_fs w) (filepath_Join (directory b) (makeFilename d true))
    = inr {| fi_Size := s' |} ->
  fst (HasBlob b {| Digest := d; Size := -1; IsConfig := isConfig |} w)
    = (true, s, None)
  /\ events_of (HasBlob b {| Digest := d; Size := -1;
                             IsConfig := isConfig |}) w
    = [EvStat (filepath_Join (directory b) (makeFilename d false))].
Proof.
  intros Hd Hplain _. unfold events_of.
  rewrite !HasBlob_nonempty by exact Hd.
  rewrite !HasBlob_forms_step. unfold blobpath. cbn [Digest Size].
  rewrite Hplain. cbn. split; [reflexivity|apply skipn_length_app].
Qed.

(** The answer when the plain form is there with another size than the
    one asked for: the second test of the loop sees a nil error, which is
    not a does-not-exist error, and returns the wrapping of nil, nil; the
    config form is not probed. *)
Lemma HasBlob_size_mismatch b blobinfo w (fileInfo : FileInfo) :
  Digest blobinfo <> "" ->
  sys_stat (w_fs w) (filepath_Join (directory b)
                       (makeFilename (Digest blobinfo) false))
    = inr fileInfo ->
  Size blobinfo <> -1 ->
  Size blobinfo <> fi_Size fileInfo ->
  fst (HasBlob b blobinfo w) = (false, -1, None)
  /\ events_of (HasBlob b blobinfo) w
     = [EvStat (filepath_Join (directory b)
                  (makeFilename (Digest blobinfo) false))].
Proof.
  intros Hd Hplain H1 H2. unfold events_of.
  rewrite !HasBlob_nonempty by exact Hd.
  rewrite !HasBlob_forms_step. unfold blobpath. rewrite Hplain.
  apply Z.eqb_neq in H1, H2. rewrite H1, H2. cbn.
  split; [reflexivity|apply skipn_length_app].
Qed.

(** C4: when a stat that [HasBlob] performs fails with anything but
    does-not-exist, the answer is [(false, -1, err)] with [err] the stat's
    [*PathError] (operation "stat", the path, the error number) wrapped
    under "checking size"; the failed stat is the last call made. *)
Theorem HasBlob_stat_error b blobinfo w (filename : string)
  (errno : syscall.Errno) :
  In (EvStat filename) (events_of (HasBlob b blobinfo) w) ->
  sys_stat (w_fs w) filename = inl errno ->
  errno <> syscall.ENOENT ->
  let err := withStack (PathError "stat" filename errno) "checking size" [] in
  fst (HasBlob b blobinfo w) = (false, -1, Some err)
  /\ is_wrapped (Some err) = true
  /\ perrors.Cause err = PathError "stat" filename errno
  /\ exists before,
       events_of (HasBlob b blobinfo) w = (before ++ [EvStat filename])%list.
Proof.
  intros Hin Hstat Hne err. subst err. unfold events_of in *.
  unfold HasBlob in *.
  destruct (String.eqb (Digest blobinfo) "").
  { cbn in Hin. rewrite <- (app_nil_r (w_trace w)) in Hin at 2.
    rewrite skipn_length_app in Hin. destruct Hin. }
  rewrite !HasBlob_forms_step in *. unfold blobpath in *.
  set (plain := filepath_Join (directory b)
                  (makeFilename (Digest blobinfo) false)) in *.
  set (config := filepath_Join (directory b)
                   (makeFilename (Digest blobinfo) true)) in *.
  assert (Hnoent : (errno =? syscall.ENOENT) = false)
    by (apply Z.eqb_neq; exact Hne).
  destruct (sys_stat (w_fs w) plain) as [e1|fi1] eqn:E1.
  - destruct (e1 =? syscall.ENOENT) eqn:Ee1.
    + rewrite !HasBlob_forms_step in *. unfold blobpath in *.
      fold config in Hin |- *. rewrite !log_fs in *.
      assert (Hcfg : filename = config).
      { destruct (sys_stat (w_fs w) config) as [e2|fi2];
          [destruct (e2 =? syscall.ENOENT)
          |destruct ((Size blobinfo =? -1) || (Size blobinfo =? fi_Size fi2))];
          cbn in Hin; rewrite <- app_assoc, skipn_length_app in Hin;
          cbn in Hin;
          (destruct Hin as [Hin|[Hin|[]]]; [|congruence]);
          injection Hin as <-; rewrite E1 in Hstat;
          injection Hstat as <-; congruence. }
      subst filename. rewrite Hstat, Hnoent. cbn.
      rewrite <- app_assoc, skipn_length_app.
      repeat split. exists [EvStat plain]. reflexivity.
    + assert (Hpl : filename = plain).
      { cbn in Hin. rewrite skipn_length_app in Hin.
        destruct Hin as [Hin|[]]. congruence. }
      subst filename. assert (e1 = errno) by congruence. subst e1. cbn.
      rewrite skipn_length_app. repeat split. exists []. reflexivity.
  - exfalso.
    destruct ((Size blobinfo =? -1) || (Size blobinfo =? fi_Size fi1));
      cbn in Hin; rewrite skipn_length_app in Hin;
      destruct Hin as [Hin|[]]; injection Hin as <-; congruence.
Qed.

(** [HasBlob] reads the file system and nothing else of the world. *)
Lemma HasBlob_forms_frame b blobinfo forms w :
  w_fs (snd (HasBlob_forms b blobinfo forms w)) = w_fs w
  /\ exists evs,
       w_trace (snd (HasBlob_forms b blobinfo forms w)) = (w_trace w ++ evs)%list
       /\ forallb is_stat evs = true.
Proof.
  revert w. induction forms as [|isConfig forms IH]; intros w.
  - cbn. split; [reflexivity|]. exists []. rewrite app_nil_r. auto.
  - rewrite HasBlob_forms_step. cbv zeta.
    set (filename := blobpath b (Digest blobinfo) isConfig).
    destruct (sys_stat (w_fs w) filename) as [errno|fileInfo].
    + destruct (errno =? syscall.ENOENT).
      * destruct (IH (log (EvStat filename) w)) as [Hfs [evs [Htr Hall]]].
        split; [rewrite Hfs; reflexivity|].
        exists (EvStat filename :: evs). rewrite Htr. cbn.
        rewrite <- app_assoc. auto.
      * cbn. split; [reflexivity|]. exists [EvStat filename]. auto.
    + destruct ((Size blobinfo =? -1) || (Size blobinfo =? fi_Size fileInfo));
        cbn; (split; [reflexivity|]); exists [EvStat filename]; auto.
Qed.

Lemma HasBlob_forms_fs_only b blobinfo forms w1 w2 :
  w_fs w1 = w_fs w2 ->
  fst (HasBlob_forms b blobinfo forms w1)
    = fst (HasBlob_forms b blobinfo forms w2).
Proof.
  revert w1 w2. induction forms as [|isConfig forms IH]; intros w1 w2 Hfs.
  - reflexivity.
  - rewrite !HasBlob_forms_step. cbv zeta. rewrite Hfs.
    destruct (sys_stat (w_fs w2) _) as [errno|fileInfo].
    + destruct (errno =? syscall.ENOENT); [|reflexivity].
      apply IH. cbn. exact Hfs.
    + destruct ((Size blobinfo =? -1) || (Size blobinfo =? fi_Size fileInfo));
        reflexivity.
Qed.

Lemma HasBlob_frame b blobinfo w :
  w_fs (snd (HasBlob b blobinfo w)) = w_fs w
  /\ exists evs,
       w_trace (snd (HasBlob b blobinfo w)) = (w_trace w ++ evs)%list
       /\ forallb is_stat evs = true.
Proof.
  unfold HasBlob. destruct (String.eqb (Digest blobinfo) "").
  - cbn. split; [reflexivity|]. exists []. rewrite app_nil_r. auto.
  - apply HasBlob_forms_frame.
Qed.

Lemma HasBlob_fs_only b blobinfo w1 w2 :
  w_fs w1 = w_fs w2 ->
  fst (HasBlob b blobinfo w1) = fst (HasBlob b blobinfo w2).
Proof.
  intros Hfs. unfold HasBlob. destruct (String.eqb (Digest blobinfo) "").
  - reflexivity.
  - apply HasBlob_forms_fs_only, Hfs.
Qed.

Lemma ClearCache_names_fs_only b names w1 w2 :
  w_fs w1 = w_fs w2 ->
  fst (ClearCache_names b names w1) = fst (ClearCache_names b names w2)
  /\ w_fs (snd (ClearCache_names b names w1))
     = w_fs (snd (ClearCache_names b names w2)).
Proof.
  revert w1 w2. induction names as [|name names IH]; intros w1 w2 Hfs.
  - cbn. auto.
  - cbn [ClearCache_names]. unfold bind, os_RemoveAll. rewrite Hfs.
    destruct (sys_removeall (w_fs w2) _) as [fs' [e|]].
    + cbn. auto.
    + apply IH. reflexivity.
Qed.

Lemma ClearCache_fs_only b w1 w2 :
  w_fs w1 = w_fs w2 ->
  fst (ClearCache b w1) = fst (ClearCache b w2)
  /\ w_fs (snd (ClearCache b w1)) = w_fs (snd (ClearCache b w2)).
Proof.
  intros Hfs. unfold ClearCache, bind, os_Open, File_Readdirnames, File_Close.
  rewrite Hfs. destruct (sys_open (w_fs w2) (directory b)) as [e|].
  - cbn. auto.
  - cbn [log w_fs]. rewrite Hfs.
    destruct (sys_readdirnames (w_fs w2) (directory b) (-1))
      as [names [e|]].
    + cbn. auto.
    + set (u1 := log _ (log _ w1)). set (u2 := log _ (log _ w2)).
      destruct (ClearCache_names_fs_only b names u1 u2 Hfs) as [Hr Hf].
      destruct (ClearCache_names b names u1) as [r1 v1],
               (ClearCache_names b names u2) as [r2 v2].
      cbn in *. auto.
Qed.

(** C9: [HasBlob] is read-only.  It leaves the file system as it found it,
    the calls it adds to the trace are all stats, and an operation run on
    the same store afterwards, [HasBlob] or [ClearCache], answers and acts
    as it would have before the call; the store is a value that [HasBlob]
    only reads, so its reference, directory and compression policy are the
    ones of before. *)
Theorem HasBlob_read_only b blobinfo w :
  w_fs (snd (HasBlob b blobinfo w)) = w_fs w
  /\ w_trace (snd (HasBlob b blobinfo w))
     = (w_trace w ++ events_of (HasBlob b blobinfo) w)%list
  /\ forallb is_stat (events_of (HasBlob b blobinfo) w) = true
  /\ (forall blobinfo',
        fst (HasBlob b blobinfo' (snd (HasBlob b blobinfo w)))
          = fst (HasBlob b blobinfo' w))
  /\ fst (ClearCache b (snd (HasBlob b blobinfo w))) = fst (ClearCache b w)
  /\ w_fs (snd (ClearCache b (snd (HasBlob b blobinfo w))))
     = w_fs (snd (ClearCache b w)).
Proof.
  destruct (HasBlob_frame b blobinfo w) as [Hfs [evs [Htr Hall]]].
  assert (Hev : events_of (HasBlob b blobinfo) w = evs).
  { unfold events_of. rewrite Htr. apply skipn_length_app. }
  rewrite Hev. repeat split; auto.
  - intros blobinfo'. apply HasBlob_fs_only, Hfs.
  - apply ClearCache_fs_only, Hfs.
  - apply ClearCache_fs_only, Hfs.
Qed.

End HasBlobProofs.

Section StoreProofs.

Context {FS : Type} `{OS FS} {Remote Ctx SystemContext Named : Type}.

Implicit Types (b : BlobCache Remote Ctx SystemContext Named).
Implicit Types (ref : ImageReference Remote Ctx SystemContext Named).
Implicit Types (w : World FS).

(** C5: [NewBlobCache] fails with an error and no store when the directory
    is the empty string, fails likewise when the compression value is none
    of [Compress], [Decompress], [PreserveOriginal], and otherwise returns
    the store of exactly the reference, directory and compression given; in
    every case the world it returns is the one it received, no call to the
    file system having been made. *)
Theorem NewBlobCache_spec ref (dir : string) (c : LayerCompression) w :
  snd (NewBlobCache ref dir c w) = w
  /\ events_of (NewBlobCache ref dir c) w = []
  /\ (dir = "" ->
      fst (NewBlobCache ref dir c w)
        = (None,
           Some (fmtError
                   "error creating cache around reference %q: no directory specified"
                   [ArgString (transports_ImageName ref)])))
  /\ (c <> Compress -> c <> Decompress -> c <> PreserveOriginal ->
      exists e, fst (NewBlobCache ref dir c w) = (None, Some e))
  /\ (dir <> "" -> c = Compress \/ c = Decompress \/ c = PreserveOriginal ->
      fst (NewBlobCache ref dir c w)
        = (Some {| reference := ref; directory := dir; compress := c |},
           None)).
Proof.
  assert (Hsnd : snd (NewBlobCache ref dir c w) = w).
  { unfold NewBlobCache.
    destruct (String.eqb dir ""); [reflexivity|].
    destruct ((c =? Compress) || (c =? Decompress) || (c =? PreserveOriginal));
      reflexivity. }
  split; [exact Hsnd|]. split.
  { unfold events_of. rewrite Hsnd.
    rewrite <- (app_nil_r (w_trace w)) at 2. apply skipn_length_app. }
  unfold NewBlobCache. repeat split.
  - intros ->. reflexivity.
  - intros H1 H2 H3. apply Z.eqb_neq in H1, H2, H3. rewrite H1, H2, H3.
    destruct (String.eqb dir ""); cbn; eexists; reflexivity.
  - intros Hdir Hc. apply String.eqb_neq in Hdir. rewrite Hdir.
    destruct Hc as [-> | [-> | ->]]; reflexivity.
Qed.

(** C7: each identity and lifecycle operation of the store returns what the
    same operation of the wrapped reference returns on the same arguments,
    [DeleteImage] acting on the remote side exactly as the reference's does;
    seen through the interface, the store is the reference it wraps. *)
Theorem BlobCache_forwards b (ctx : Ctx) (sys : option SystemContext)
  (remote : Remote) :
  Transport b = ref_Transport (reference b)
  /\ StringWithinTransport b = ref_StringWithinTransport (reference b)
  /\ DockerReference b = ref_DockerReference (reference b)
  /\ PolicyConfigurationIdentity b
     = ref_PolicyConfigurationIdentity (reference b)
  /\ PolicyConfigurationNamespaces b
     = ref_PolicyConfigurationNamespaces (reference b)
  /\ DeleteImage b ctx sys remote = ref_DeleteImage (reference b) ctx sys remote
  /\ BlobCache_ImageReference b = reference b.
Proof.
  repeat split. unfold BlobCache_ImageReference, Transport,
    StringWithinTransport, DockerReference, PolicyConfigurationIdentity,
    PolicyConfigurationNamespaces, DeleteImage.
  destruct (reference b). reflexivity.
Qed.

End StoreProofs.

(** ** The filename scheme *)

Lemma list_ascii_app (s t : string) :
  list_ascii_of_string (s ++ t)
  = (list_ascii_of_string s ++ list_ascii_of_string t)%list.
Proof. induction s as [|c s IH]; cbn; [reflexivity|now rewrite IH]. Qed.

Lemma string_app_inv_tail (s1 s2 t : string) : s1 ++ t = s2 ++ t -> s1 = s2.
Proof.
  intros Heq. apply (f_equal list_ascii_of_string) in Heq.
  rewrite !list_ascii_app in Heq. apply app_inv_tail in Heq.
  rewrite <- (string_of_list_ascii_of_string s1),
          <- (string_of_list_ascii_of_string s2).
  now rewrite Heq.
Qed.

Lemma encoded_ok_Forall (s : string) :
  digest.encoded_ok s = true ->
  Forall (fun c => digest.is_encoded c = true) (list_ascii_of_string s).
Proof.
  induction s as [|c s IH]; cbn; intros Hok; constructor.
  - now apply andb_true_iff in Hok.
  - apply IH. now apply andb_true_iff in Hok.
Qed.

(** A well-formed digest is an algorithm, a colon and an encoded part. *)
Lemma well_formed_from_split (alnum : bool) (s : string) :
  digest.well_formed_from alnum s = true ->
  exists alg enc, s = alg ++ String ":" enc /\ digest.encoded_ok enc = true.
Proof.
  revert alnum. induction s as [|c s IH]; cbn; intros alnum Hwf.
  - discriminate.
  - destruct (Ascii.eqb_spec c ":") as [-> | Hc].
    + exists "", s. split; [reflexivity|].
      apply andb_true_iff in Hwf. apply Hwf.
    + assert (Hrec : exists a', digest.well_formed_from a' s = true).
      { destruct (digest.is_lower_digit c); [eauto|].
        destruct (digest.is_separator c); [|discriminate].
        apply andb_true_iff in Hwf. destruct Hwf; eauto. }
      destruct Hrec as [a' Hrec].
      destruct (IH a' Hrec) as [alg [enc [-> Henc]]].
      exists (String c alg), enc. auto.
Qed.

(** The encoded part has no dot and the suffix has no colon, so that no
    well-formed digest ends in the config suffix. *)
Lemma well_formed_not_config (d x : digest.Digest) :
  digest.well_formed d = true -> d <> x ++ ".config".
Proof.
  intros Hwf Heq. unfold digest.well_formed in Hwf.
  destruct (well_formed_from_split _ _ Hwf) as [alg [enc [Hd Henc]]].
  apply encoded_ok_Forall, Forall_rev in Henc.
  rewrite Hd in Heq. apply (f_equal list_ascii_of_string) in Heq.
  rewrite !list_ascii_app in Heq. apply (f_equal (@rev ascii)) in Heq.
  rewrite !rev_app_distr in Heq. cbn in Heq. rewrite <- !app_assoc in Heq.
  cbn in Heq.
  repeat match type of Henc with
    | Forall _ ?l =>
        destruct l as [|? ?]; cbn in Heq;
        [discriminate Heq
        |inversion Henc as [|? ? Hhd Htl]; subst; clear Henc;
         rename Htl into Henc;
         injection Heq as ? Heq; subst;
         try (vm_compute in Hhd; discriminate Hhd); clear Hhd]
  end.
Qed.

Lemma makeFilename_injective (d1 d2 : digest.Digest) (c1 c2 : bool) :
  digest.well_formed d1 = true -> digest.well_formed d2 = true ->
  makeFilename d1 c1 = makeFilename d2 c2 -> d1 = d2 /\ c1 = c2.
Proof.
  intros Hwf1 Hwf2 Heq. unfold makeFilename, digest.String in Heq.
  destruct c1, c2.
  - split; [|reflexivity]. eapply string_app_inv_tail, Heq.
  - exfalso. symmetry in Heq. exact (well_formed_not_config _ _ Hwf2 Heq).
  - exfalso. exact (well_formed_not_config _ _ Hwf1 Heq).
  - auto.
Qed.

(** C8: the filename is a function of the digest and the config flag alone:
    the digest's string followed by ".config" for a config blob, the
    digest's string as it is otherwise; and two distinct pairs of a
    well-formed digest and a flag never get the same filename. *)
Theorem makeFilename_scheme (d1 d2 : digest.Digest) (c1 c2 : bool) :
  makeFilename d1 true = digest.String d1 ++ ".config"
  /\ makeFilename d1 false = digest.String d1
  /\ (digest.well_formed d1 = true ->
      digest.well_formed d2 = true ->
      (d1, c1) <> (d2, c2) ->
      makeFilename d1 c1 <> makeFilename d2 c2).
Proof.
  split; [reflexivity|]. split; [reflexivity|].
  intros Hwf1 Hwf2 Hne Heq. apply Hne.
  destruct (makeFilename_injective d1 d2 c1 c2 Hwf1 Hwf2 Heq) as [-> ->].
  reflexivity.
Qed.

(** ** Clearing the cache *)

Section ClearCacheProofs.

Context {FS : Type} `{OSLaws FS} {Remote Ctx SystemContext Named : Type}.

Implicit Types (b : BlobCache Remote Ctx SystemContext Named).
Implicit Types (w : World FS) (fs : FS).

Lemma ClearCache_names_ok b names w fs' :
  remove_all (w_fs w) (paths b names) = Some fs' ->
  ClearCache_names b names w
  = (None, {| w_fs := fs';
              w_trace := w_trace w ++ map EvRemoveAll (paths b names) |}).
Proof.
  revert w. induction names as [|name names IH]; intros w Hall.
  - cbn in *. injection Hall as <-. rewrite app_nil_r.
    destruct w; reflexivity.
  - cbn in Hall. cbn [ClearCache_names]. unfold bind, os_RemoveAll.
    destruct (sys_removeall (w_fs w) _) as [fs1 [e|]]; [discriminate|].
    match goal with
    | |- ClearCache_names b names ?u = _ => rewrite (IH u Hall)
    end.
    cbn. rewrite <- app_assoc. reflexivity.
Qed.

Lemma ClearCache_names_fail b pre name post w fs1 fs2 (e : error) :
  remove_all (w_fs w) (paths b pre) = Some fs1 ->
  sys_removeall fs1 (filepath_Join (directory b) name) = (fs2, Some e) ->
  ClearCache_names b (pre ++ name :: post) w
  = (Some (clearing_error b e),
     {| w_fs := fs2;
        w_trace := w_trace w ++ map EvRemoveAll (paths b (pre ++ [name])) |}).
Proof.
  revert w. induction pre as [|p pre IH]; intros w Hall Hfail.
  - cbn in Hall. injection Hall as <-.
    cbn [app ClearCache_names]. unfold bind, os_RemoveAll.
    rewrite Hfail. reflexivity.
  - cbn in Hall. cbn [app ClearCache_names]. unfold bind, os_RemoveAll.
    destruct (sys_removeall (w_fs w) _) as [fs' [e'|]]; [discriminate|].
    match goal with
    | |- ClearCache_names b _ ?u = _ => rewrite (IH u Hall Hfail)
    end.
    cbn. rewrite <- app_assoc. reflexivity.
Qed.

Lemma remove_all_keeps_gone fs paths0 fs' (path : string) :
  visible fs path = false ->
  remove_all fs paths0 = Some fs' ->
  visible fs' path = false.
Proof.
  revert fs. induction paths0 as [|p ps IH]; intros fs Hgone Hall; cbn in Hall.
  - now injection Hall as <-.
  - pose proof (removeall_creates_nothing fs p path Hgone) as Hstep.
    destruct (sys_removeall fs p) as [fs1 [e|]]; [discriminate|].
    exact (IH fs1 Hstep Hall).
Qed.

Lemma remove_all_gone fs paths0 fs' (path : string) :
  remove_all fs paths0 = Some fs' ->
  In path paths0 ->
  visible fs' path = false.
Proof.
  revert fs. induction paths0 as [|p ps IH]; intros fs Hall Hin; cbn in Hall.
  - destruct Hin.
  - destruct (sys_removeall fs p) as [fs1 [e|]] eqn:Hrm; [discriminate|].
    destruct Hin as [<-|Hin].
    + eapply remove_all_keeps_gone; [|exact Hall].
      eapply removeall_removes, Hrm.
    + exact (IH fs1 Hall Hin).
Qed.

(** A sweep either removes everything or has a first removal that fails. *)
Lemma remove_all_cases fs b names :
  (exists fs', remove_all fs (paths b names) = Some fs')
  \/ (exists pre name post fs1 fs2 e,
        names = (pre ++ name :: post)%list
        /\ remove_all fs (paths b pre) = Some fs1
        /\ sys_removeall fs1 (filepath_Join (directory b) name)
           = (fs2, Some e)).
Proof.
  revert fs. induction names as [|name names IH]; intros fs.
  - left. exists fs. reflexivity.
  - destruct (sys_removeall fs (filepath_Join (directory b) name))
      as [fs1 [e|]] eqn:Hrm.
    + right. exists [], name, names, fs, fs1, e. auto.
    + destruct (IH fs1) as [[fs' Hall]|Hfail].
      * left. exists fs'. cbn. now rewrite Hrm.
      * destruct Hfail as (pre & n & post & fa & fb & e & -> & Hall & Hf).
        right. exists (name :: pre), n, post, fa, fb, e.
        repeat split; auto. cbn. now rewrite Hrm.
Qed.

(** C6, as the code has it: a failure to open the directory is returned as
    [os.Open] reported it, not wrapped, and a failure to list it is returned
    wrapped, in both cases with no removal attempted and the file system
    untouched; otherwise the listed entries are removed in listing order,
    and at the first removal that fails the sweep stops and returns that
    error wrapped, the entries removed before it staying removed. *)
Theorem ClearCache_spec b w :
  let dir := directory b in
  (forall errno, sys_open (w_fs w) dir = Some errno ->
     ClearCache b w = (Some (PathError "open" dir errno), log (EvOpen dir) w)
     /\ is_wrapped (fst (ClearCache b w)) = false)
  /\ (forall names e,
        sys_open (w_fs w) dir = None ->
        sys_readdirnames (w_fs w) dir (-1) = (names, Some e) ->
        fst (ClearCache b w)
          = Some (withStack e "error reading directory %q" [ArgString dir])
        /\ w_fs (snd (ClearCache b w)) = w_fs w
        /\ events_of (ClearCache b) w
           = [EvOpen dir; EvReaddirnames dir (-1); EvClose dir])
  /\ (forall names fs',
        sys_open (w_fs w) dir = None ->
        sys_readdirnames (w_fs w) dir (-1) = (names, None) ->
        remove_all (w_fs w) (paths b names) = Some fs' ->
        fst (ClearCache b w) = None
        /\ w_fs (snd (ClearCache b w)) = fs'
        /\ events_of (ClearCache b) w
           = ([EvOpen dir; EvReaddirnames dir (-1)]
              ++ map EvRemoveAll (paths b names) ++ [EvClose dir])%list
        /\ (forall path, In path (paths b names) -> visible fs' path = false))
  /\ (forall pre name post fs1 fs2 e,
        sys_open (w_fs w) dir = None ->
        sys_readdirnames (w_fs w) dir (-1) = (pre ++ name :: post, None)%list ->
        remove_all (w_fs w) (paths b pre) = Some fs1 ->
        sys_removeall fs1 (filepath_Join dir name) = (fs2, Some e) ->
        fst (ClearCache b w) = Some (clearing_error b e)
        /\ is_wrapped (fst (ClearCache b w)) = true
        /\ w_fs (snd (ClearCache b w)) = fs2
        /\ events_of (ClearCache b) w
           = ([EvOpen dir; EvReaddirnames dir (-1)]
              ++ map EvRemoveAll (paths b (pre ++ [name])) ++ [EvClose dir])%list
        /\ (forall path, In path (paths b pre) -> visible fs2 path = false)).
Proof.
  intros dir. subst dir.
  unfold events_of, ClearCache, bind, os_Open, File_Readdirnames, File_Close.
  repeat match goal with |- _ /\ _ => split end.
  - intros errno ->. cbn. auto.
  - intros names e -> . cbn [log w_fs]. intros ->. cbn.
    rewrite <- !app_assoc, skipn_length_app. auto.
  - intros names fs' ->. cbn [log w_fs]. intros -> Hall.
    rewrite (ClearCache_names_ok b names _ fs') by exact Hall. cbn.
    rewrite <- !app_assoc, skipn_length_app. cbn. repeat split.
    intros path Hin. eapply remove_all_gone; eauto.
  - intros pre name post fs1 fs2 e ->. cbn [log w_fs]. intros -> Hall Hfail.
    rewrite (ClearCache_names_fail b pre name post _ fs1 fs2 e)
      by assumption.
    cbn. rewrite <- !app_assoc, skipn_length_app. cbn. repeat split.
    intros path Hin.
    pose proof (remove_all_gone _ _ _ path Hall Hin) as Hgone.
    pose proof (removeall_creates_nothing fs1
                  (filepath_Join (directory b) name) path Hgone) as Hkeep.
    now rewrite Hfail in Hkeep.
Qed.

End ClearCacheProofs.

(** ** The simulated file system obeys the laws of removal *)

Lemma find_filter_none {A} (f g : A -> bool) (l : list A) :
  find f l = None -> find f (filter g l) = None.
Proof.
  induction l as [|a l IH]; cbn; [auto|].
  destruct (f a) eqn:Hf; [discriminate|]. intros Hnone.
  destruct (g a); cbn; [rewrite Hf|]; auto.
Qed.

Lemma find_filter_excluded {A} (f g : A -> bool) (l : list A) :
  (forall a, g a = true -> f a = false) -> find f (filter g l) = None.
Proof.
  intros Hex. induction l as [|a l IH]; cbn; [reflexivity|].
  destruct (g a) eqn:Hg; cbn; [rewrite (Hex a Hg)|]; exact IH.
Qed.

Lemma existsb_filter_false {A} (f g : A -> bool) (l : list A) :
  existsb f l = false -> existsb f (filter g l) = false.
Proof.
  induction l as [|a l IH]; cbn; [auto|].
  intros Hex. apply orb_false_iff in Hex. destruct Hex as [Hf Hl].
  destruct (g a); cbn; [rewrite Hf|]; auto.
Qed.

Lemma existsb_filter_excluded {A} (f g : A -> bool) (l : list A) :
  (forall a, g a = true -> f a = false) -> existsb f (filter g l) = false.
Proof.
  intros Hex. induction l as [|a l IH]; cbn; [reflexivity|].
  destruct (g a) eqn:Hg; cbn; [rewrite (Hex a Hg)|]; exact IH.
Qed.

Lemma Sim_removeall_removes (fs fs' : Sim.T) (path : string) :
  Sim.removeall fs path = (fs', None) -> visible fs' path = false.
Proof.
  unfold Sim.removeall, visible. cbn [sys_stat Sim.os].
  destruct (Sim.fault fs Sim.OpRemove path); [discriminate|].
  intros Heq. injection Heq as <-. unfold Sim.stat, Sim.fault, Sim.is_dir.
  cbn [Sim.faults Sim.entries Sim.dirs].
  destruct (find _ (Sim.faults fs)); [reflexivity|].
  rewrite find_filter_excluded.
  - rewrite existsb_filter_excluded; [reflexivity|].
    intros d Hd. apply negb_true_iff in Hd. now rewrite String.eqb_sym.
  - intros e He. apply andb_true_iff in He. now apply negb_true_iff, He.
Qed.

Lemma Sim_removeall_creates_nothing (fs : Sim.T) (path path' : string) :
  visible fs path' = false ->
  visible (fst (Sim.removeall fs path)) path' = false.
Proof.
  unfold Sim.removeall, visible. cbn [sys_stat Sim.os].
  destruct (Sim.fault fs Sim.OpRemove path); [auto|].
  unfold Sim.stat, Sim.fault, Sim.is_dir.
  cbn [fst Sim.faults Sim.entries Sim.dirs].
  destruct (find _ (Sim.faults fs)); [reflexivity|].
  destruct (find _ (Sim.entries fs)) eqn:Hfind; [discriminate|].
  rewrite (find_filter_none _ _ _ Hfind).
  destruct (existsb _ (Sim.dirs fs)) eqn:Hdir; [discriminate|].
  now rewrite (existsb_filter_false _ _ _ Hdir).
Qed.

#[global] Instance Sim_laws : OSLaws Sim.T.
Proof.
  split.
  - exact Sim_removeall_removes.
  - exact Sim_removeall_creates_nothing.
Qed.

(** ** The properties on the fixtures *)

(** C1 on the fixture: the layer stored with five bytes. *)
Lemma HasBlob_stored_blob_witness :
  fst (HasBlob Fixture.cache
         {| Digest := Fixture.layer; Size := 5; IsConfig := false |}
         Fixture.healthy) = (true, 5, None)
  /\ fst (HasBlob Fixture.cache
            {| Digest := Fixture.layer; Size := wrap64 (5 + 1);
               IsConfig := false |}
            Fixture.healthy) = (false, -1, None)
  /\ fst (HasBlob Fixture.cache
            {| Digest := Fixture.layer; Size := -1; IsConfig := false |}
            Fixture.healthy) = (true, 5, None).
Proof.
  apply (HasBlob_stored_blob Fixture.cache Fixture.healthy Fixture.layer 5).
  - discriminate.
  - unfold max_int64. lia.
  - reflexivity.
Defined.

(** C2 on the fixture: the layer's digest is stored in its plain form with
    five bytes and in its config form with seven; asked for that digest
    with size seven, [HasBlob] stats the plain form only and answers
    [(false, -1, nil)], although the config form matches. *)
Theorem HasBlob_mismatch_skips_config :
  sys_stat (w_fs Fixture.healthy)
    (filepath_Join (directory Fixture.cache)
       (makeFilename Fixture.layer false)) = inr {| fi_Size := 5 |}
  /\ sys_stat (w_fs Fixture.healthy)
       (filepath_Join (directory Fixture.cache)
          (makeFilename Fixture.layer true)) = inr {| fi_Size := 7 |}
  /\ HasBlob Fixture.cache
       {| Digest := Fixture.layer; Size := 7; IsConfig := false |}
       Fixture.healthy
     = (false, -1, None, log (EvStat "/cache/sha256:ab") Fixture.healthy).
Proof. repeat split. Qed.

(** C4 on the fixture: the stat of the layer's plain form is denied. *)
Lemma HasBlob_stat_error_witness :
  fst (HasBlob Fixture.cache
         {| Digest := Fixture.layer; Size := 5; IsConfig := false |}
         Fixture.stat_denied)
  = (false, -1,
     Some (withStack (PathError "stat" "/cache/sha256:ab" syscall.EACCES)
             "checking size" [])).
Proof.
  apply (HasBlob_stat_error Fixture.cache
           {| Digest := Fixture.layer; Size := 5; IsConfig := false |}
           Fixture.stat_denied "/cache/sha256:ab" syscall.EACCES).
  - vm_compute. left. reflexivity.
  - reflexivity.
  - discriminate.
Defined.

(** C10 on the fixture: the layer's digest is stored in both forms. *)
Lemma HasBlob_plain_first_witness :
  fst (HasBlob Fixture.cache
         {| Digest := Fixture.layer; Size := -1; IsConfig := true |}
         Fixture.healthy) = (true, 5, None).
Proof.
  apply (HasBlob_plain_first Fixture.cache Fixture.healthy Fixture.layer
           5 7 true).
  - discriminate.
  - reflexivity.
  - reflexivity.
Defined.

(** C5 on the fixture: no directory, an unknown compression value, and a
    valid construction. *)
Lemma NewBlobCache_spec_witness :
  fst (NewBlobCache Fixture.busybox "" PreserveOriginal Fixture.healthy)
    = (None,
       Some (fmtError
               "error creating cache around reference %q: no directory specified"
               [ArgString "docker://busybox:latest"]))
  /\ (exists e,
        fst (NewBlobCache Fixture.busybox "/tmp/x" 999 Fixture.healthy)
        = (None, Some e))
  /\ fst (NewBlobCache Fixture.busybox "/cache" Compress Fixture.healthy)
     = (Some Fixture.cache, None).
Proof.
  split; [|split].
  - apply (proj1 (proj2 (proj2
             (NewBlobCache_spec Fixture.busybox "" PreserveOriginal
                Fixture.healthy)))).
    reflexivity.
  - apply (proj1 (proj2 (proj2 (proj2
             (NewBlobCache_spec Fixture.busybox "/tmp/x" 999
                Fixture.healthy)))));
      discriminate.
  - apply (proj2 (proj2 (proj2 (proj2
             (NewBlobCache_spec Fixture.busybox "/cache" Compress
                Fixture.healthy))))).
    + discriminate.
    + left. reflexivity.
Defined.

(** C8 on the fixture: the two forms of one digest, and two digests in the
    same form. *)
Lemma makeFilename_scheme_witness :
  makeFilename Fixture.layer true <> makeFilename Fixture.layer false
  /\ makeFilename Fixture.layer false <> makeFilename Fixture.other false.
Proof.
  split.
  - apply (proj2 (proj2
             (makeFilename_scheme Fixture.layer Fixture.layer true false)));
      [reflexivity|reflexivity|discriminate].
  - apply (proj2 (proj2
             (makeFilename_scheme Fixture.layer Fixture.other false false)));
      [reflexivity|reflexivity|discriminate].
Defined.

(** Without well-formedness two descriptors can share a filename. *)
Example makeFilename_clash :
  makeFilename "a.config" false = makeFilename "a" true.
Proof. reflexivity. Qed.

(** C6 as stated fails on the fixture whose cache directory cannot be
    opened: the error [ClearCache] returns is the [*PathError] of [os.Open]
    itself, under no wrapper. *)
Lemma ClearCache_open_error_unwrapped :
  sys_open (w_fs Fixture.open_denied) (directory Fixture.cache)
    = Some syscall.EACCES
  /\ fst (ClearCache Fixture.cache Fixture.open_denied)
     = Some (PathError "open" "/cache" syscall.EACCES)
  /\ is_wrapped (fst (ClearCache Fixture.cache Fixture.open_denied)) = false.
Proof. repeat split. Qed.

(** C6 on the fixtures: the directory that cannot be opened, the one that
    cannot be listed, the clean sweep, and the sweep that stops at the
    second entry. *)
Lemma ClearCache_spec_witness :
  fst (ClearCache Fixture.cache Fixture.open_denied)
    = Some (PathError "open" "/cache" syscall.EACCES)
  /\ fst (ClearCache Fixture.cache Fixture.list_broken)
     = Some (withStack (PathError "readdirent" "/cache" syscall.EIO)
               "error reading directory %q" [ArgString "/cache"])
  /\ fst (ClearCache Fixture.cache Fixture.healthy) = None
  /\ (fst (ClearCache Fixture.cache Fixture.remove_denied)
      = Some (withStack
                (PathError "unlinkat" "/cache/sha256:ab.config" syscall.EPERM)
                "clearing cache for %q" [ArgString "docker://busybox:latest"])
      /\ visible (w_fs (snd (ClearCache Fixture.cache Fixture.remove_denied)))
           "/cache/sha256:ab" = false).
Proof.
  split; [|split; [|split]].
  - pose proof (proj1 (ClearCache_spec Fixture.cache Fixture.open_denied)
                  syscall.EACCES eq_refl) as [Hopen _].
    rewrite Hopen. reflexivity.
  - apply (proj1 (proj2 (ClearCache_spec Fixture.cache Fixture.list_broken))
             [] (PathError "readdirent" "/cache" syscall.EIO));
      reflexivity.
  - apply (proj1 (proj2 (proj2
             (ClearCache_spec Fixture.cache Fixture.healthy)))
             ["sha256:ab"; "sha256:ab.config"; "sha256:cd"]
             {| Sim.dirs := ["/cache"]; Sim.entries := [];
                Sim.faults := [] |});
      reflexivity.
  - pose proof (proj2 (proj2 (proj2
                  (ClearCache_spec Fixture.cache Fixture.remove_denied)))
                  ["sha256:ab"] "sha256:ab.config" ["sha256:cd"]
                  _ _ _ eq_refl eq_refl eq_refl eq_refl)
      as (Hres & _ & Hfs & _ & Hgone).
    split; [exact Hres|].
    rewrite Hfs. apply Hgone. left. reflexivity.
Defined.

(** * Further properties of the package *)

(** ** What [HasBlob] answers, and from which stats *)

Section HasBlobAnswers.

Context {FS : Type} `{OS FS} {Remote Ctx SystemContext Named : Type}.

Implicit Types (b : BlobCache Remote Ctx SystemContext Named).
Implicit Types (blobinfo : BlobInfo) (w : World FS).

Lemma events_log1 w (ev : Syscall) :
  skipn (length (w_trace w)) (w_trace (log ev w)) = [ev].
Proof. cbn. apply skipn_length_app. Qed.

Lemma events_log2 w (ev1 ev2 : Syscall) :
  skipn (length (w_trace w)) (w_trace (log ev2 (log ev1 w))) = [ev1; ev2].
Proof. cbn. rewrite <- app_assoc. apply skipn_length_app. Qed.

(** [HasBlob] on a non-empty digest, by the outcomes of its two stats. *)
Lemma HasBlob_two_stats b blobinfo w :
  Digest blobinfo <> "" ->
  let plain := blobpath b (Digest blobinfo) false in
  let config := blobpath b (Digest blobinfo) true in
  let w1 := log (EvStat plain) w in
  let w2 := log (EvStat config) w1 in
  let ok (fi : FileInfo) :=
    (Size blobinfo =? -1) || (Size blobinfo =? fi_Size fi) in
  let failed (path : string) (errno : syscall.Errno) :=
    Some (withStack (PathError "stat" path errno) "checking size" []) in
  HasBlob b blobinfo w =
  match sys_stat (w_fs w) plain with
  | inr fi =>
      if ok fi then (true, fi_Size fi, None, w1) else (false, -1, None, w1)
  | inl e1 =>
      if e1 =? syscall.ENOENT then
        match sys_stat (w_fs w) config with
        | inr fi =>
            if ok fi then (true, fi_Size fi, None, w2)
            else (false, -1, None, w2)
        | inl e2 =>
            if e2 =? syscall.ENOENT then (false, -1, None, w2)
            else (false, -1, failed config e2, w2)
        end
      else (false, -1, failed plain e1, w1)
  end.
Proof.
  intros Hd. cbv zeta. rewrite HasBlob_nonempty by exact Hd.
  rewrite HasBlob_forms_step. cbv zeta.
  destruct (sys_stat (w_fs w) (blobpath b (Digest blobinfo) false))
    as [e1|fi1]; [|reflexivity].
  destruct (e1 =? syscall.ENOENT); [|reflexivity].
  rewrite HasBlob_forms_step. cbv zeta. rewrite log_fs.
  destruct (sys_stat (w_fs w) (blobpath b (Digest blobinfo) true))
    as [e2|fi2]; [|reflexivity].
  destruct (e2 =? syscall.ENOENT); reflexivity.
Qed.

Lemma HasBlob_empty b blobinfo w :
  Digest blobinfo = "" -> HasBlob b blobinfo w = (false, -1, None, w).
Proof. intros Hd. unfold HasBlob. rewrite Hd. reflexivity. Qed.

(** X1: when neither the plain nor the config path of a non-empty digest
    exists, [HasBlob] answers [(false, -1, nil)], whatever size was asked
    for, after having stat-ed the plain path and then the config path. *)
Theorem HasBlob_absent b blobinfo w :
  Digest blobinfo <> "" ->
  sys_stat (w_fs w) (blobpath b (Digest blobinfo) false)
    = inl syscall.ENOENT ->
  sys_stat (w_fs w) (blobpath b (Digest blobinfo) true)
    = inl syscall.ENOENT ->
  fst (HasBlob b blobinfo w) = (false, -1, None)
  /\ events_of (HasBlob b blobinfo) w
     = [EvStat (blobpath b (Digest blobinfo) false);
        EvStat (blobpath b (Digest blobinfo) true)].
Proof.
  intros Hd Hplain Hconfig. unfold events_of.
  rewrite (HasBlob_two_stats b blobinfo w Hd). cbv zeta.
  rewrite Hplain, Hconfig. cbn [Z.eqb syscall.ENOENT Pos.eqb fst snd].
  split; [reflexivity|apply events_log2].
Qed.

(** X2: a digest stored in its config form only is found through the
    second stat: when the plain path does not exist and the config path has
    a file whose size is the one asked for, or the size asked for is [-1],
    [HasBlob] answers [(true, size of that file, nil)]. *)
Theorem HasBlob_config_form b blobinfo w (fileInfo : FileInfo) :
  Digest blobinfo <> "" ->
  sys_stat (w_fs w) (blobpath b (Digest blobinfo) false)
    = inl syscall.ENOENT ->
  sys_stat (w_fs w) (blobpath b (Digest blobinfo) true) = inr fileInfo ->
  Size blobinfo = -1 \/ Size blobinfo = fi_Size fileInfo ->
  fst (HasBlob b blobinfo w) = (true, fi_Size fileInfo, None).
Proof.
  intros Hd Hplain Hconfig Hsize.
  rewrite (HasBlob_two_stats b blobinfo w Hd). cbv zeta.
  rewrite Hplain, Hconfig. cbn [Z.eqb syscall.ENOENT Pos.eqb].
  assert (Hok : (Size blobinfo =? -1) || (Size blobinfo =? fi_Size fileInfo)
                = true).
  { apply orb_true_iff. destruct Hsize as [Hs|Hs]; [left|right];
      now apply Z.eqb_eq. }
  rewrite Hok. reflexivity.
Qed.

(** X3: an answer "found" is backed by a file: when [HasBlob] returns
    [true] with size [s], the error is nil, the digest is not empty, one of
    the two paths of the digest has a file of exactly [s] bytes, and the
    size asked for was [s] or [-1]. *)
Theorem HasBlob_found_sound b blobinfo w (s : int64) (err : option error) :
  fst (HasBlob b blobinfo w) = (true, s, err) ->
  err = None
  /\ Digest blobinfo <> ""
  /\ (Size blobinfo = -1 \/ Size blobinfo = s)
  /\ exists isConfig,
       sys_stat (w_fs w) (blobpath b (Digest blobinfo) isConfig)
         = inr {| fi_Size := s |}.
Proof.
  intros Hfound.
  destruct (String.eqb_spec (Digest blobinfo) "") as [Hd|Hd].
  { rewrite (HasBlob_empty b blobinfo w Hd) in Hfound. discriminate. }
  rewrite (HasBlob_two_stats b blobinfo w Hd) in Hfound. cbv zeta in Hfound.
  destruct (sys_stat (w_fs w) (blobpath b (Digest blobinfo) false))
    as [e1|[s1]] eqn:Hplain.
  - destruct (e1 =? syscall.ENOENT); [|discriminate].
    destruct (sys_stat (w_fs w) (blobpath b (Digest blobinfo) true))
      as [e2|[s2]] eqn:Hconfig.
    + destruct (e2 =? syscall.ENOENT); discriminate.
    + cbn [fi_Size] in Hfound.
      destruct ((Size blobinfo =? -1) || (Size blobinfo =? s2)) eqn:Hok;
        [|discriminate].
      injection Hfound as <- <-. apply orb_true_iff in Hok.
      repeat split; auto.
      * destruct Hok as [Hk|Hk]; apply Z.eqb_eq in Hk; auto.
      * exists true. exact Hconfig.
  - cbn [fi_Size] in Hfound.
    destruct ((Size blobinfo =? -1) || (Size blobinfo =? s1)) eqn:Hok;
      [|discriminate].
    injection Hfound as <- <-. apply orb_true_iff in Hok.
    repeat split; auto.
    + destruct Hok as [Hk|Hk]; apply Z.eqb_eq in Hk; auto.
    + exists false. exact Hplain.
Qed.

(** X4: every answer of [HasBlob] has one of three shapes: found with a nil
    error, or not found with size [-1] and a nil error, or not found with
    size [-1] and an error; "found" never comes with an error and "not
    found" never with a size. *)
Theorem HasBlob_answer_shape b blobinfo w :
  (exists s, fst (HasBlob b blobinfo w) = (true, s, None))
  \/ (exists err, fst (HasBlob b blobinfo w) = (false, -1, err)).
Proof.
  destruct (String.eqb_spec (Digest blobinfo) "") as [Hd|Hd].
  { rewrite (HasBlob_empty b blobinfo w Hd). right. eexists. reflexivity. }
  rewrite (HasBlob_two_stats b blobinfo w Hd). cbv zeta.
  destruct (sys_stat (w_fs w) (blobpath b (Digest blobinfo) false))
    as [e1|fi1].
  - destruct (e1 =? syscall.ENOENT); [|right; eexists; reflexivity].
    destruct (sys_stat (w_fs w) (blobpath b (Digest blobinfo) true))
      as [e2|fi2].
    + destruct (e2 =? syscall.ENOENT); right; eexists; reflexivity.
    + destruct ((Size blobinfo =? -1) || (Size blobinfo =? fi_Size fi2));
        [left|right]; eexists; reflexivity.
  - destruct ((Size blobinfo =? -1) || (Size blobinfo =? fi_Size fi1));
      [left|right]; eexists; reflexivity.
Qed.

(** X5: an error of [HasBlob] always comes from a stat: when the answer
    carries an error, one of the two paths of the digest failed to stat with
    an error number other than ENOENT, and the error is that stat's
    [*PathError] wrapped under "checking size". *)
Theorem HasBlob_error_origin b blobinfo w (found : bool) (size : int64)
  (e : error) :
  fst (HasBlob b blobinfo w) = (found, size, Some e) ->
  found = false /\ size = -1
  /\ exists isConfig errno,
       sys_stat (w_fs w) (blobpath b (Digest blobinfo) isConfig) = inl errno
       /\ errno <> syscall.ENOENT
       /\ e = withStack
               (PathError "stat" (blobpath b (Digest blobinfo) isConfig) errno)
               "checking size" [].
Proof.
  intros Herr.
  destruct (String.eqb_spec (Digest blobinfo) "") as [Hd|Hd].
  { rewrite (HasBlob_empty b blobinfo w Hd) in Herr. discriminate. }
  rewrite (HasBlob_two_stats b blobinfo w Hd) in Herr. cbv zeta in Herr.
  destruct (sys_stat (w_fs w) (blobpath b (Digest blobinfo) false))
    as [e1|fi1] eqn:Hplain.
  - destruct (e1 =? syscall.ENOENT) eqn:He1.
    + destruct (sys_stat (w_fs w) (blobpath b (Digest blobinfo) true))
        as [e2|fi2] eqn:Hconfig.
      * destruct (e2 =? syscall.ENOENT) eqn:He2; [discriminate|].
        injection Herr as <- <- <-. repeat split.
        exists true, e2. repeat split; auto. now apply Z.eqb_neq.
      * destruct ((Size blobinfo =? -1) || (Size blobinfo =? fi_Size fi2));
          discriminate.
    + injection Herr as <- <- <-. repeat split.
      exists false, e1. repeat split; auto. now apply Z.eqb_neq.
  - destruct ((Size blobinfo =? -1) || (Size blobinfo =? fi_Size fi1));
      discriminate.
Qed.

(** X6: [HasBlob] on a non-empty digest stats the plain path first, and
    stats the config path exactly when the plain path does not exist; it
    makes no other call. *)
Theorem HasBlob_probe_order b blobinfo w :
  Digest blobinfo <> "" ->
  events_of (HasBlob b blobinfo) w
  = match sys_stat (w_fs w) (blobpath b (Digest blobinfo) false) with
    | inl errno =>
        if errno =? syscall.ENOENT
        then [EvStat (blobpath b (Digest blobinfo) false);
              EvStat (blobpath b (Digest blobinfo) true)]
        else [EvStat (blobpath b (Digest blobinfo) false)]
    | inr _ => [EvStat (blobpath b (Digest blobinfo) false)]
    end.
Proof.
  intros Hd. unfold events_of.
  rewrite (HasBlob_two_stats b blobinfo w Hd). cbv zeta.
  destruct (sys_stat (w_fs w) (blobpath b (Digest blobinfo) false))
    as [e1|fi1].
  - destruct (e1 =? syscall.ENOENT); [|apply events_log1].
    destruct (sys_stat (w_fs w) (blobpath b (Digest blobinfo) true))
      as [e2|fi2].
    + destruct (e2 =? syscall.ENOENT); apply events_log2.
    + destruct ((Size blobinfo =? -1) || (Size blobinfo =? fi_Size fi2));
        apply events_log2.
  - destruct ((Size blobinfo =? -1) || (Size blobinfo =? fi_Size fi1));
      apply events_log1.
Qed.

(** X7: a plain entry of another size hides the config entry: when the
    plain path has a file whose size is not the one asked for, and the size
    asked for is not [-1], [HasBlob] answers [(false, -1, nil)] after that
    single stat, whatever the config path holds. *)
Theorem HasBlob_plain_mismatch b blobinfo w (fileInfo : FileInfo) :
  Digest blobinfo <> "" ->
  sys_stat (w_fs w) (blobpath b (Digest blobinfo) false) = inr fileInfo ->
  Size blobinfo <> -1 ->
  Size blobinfo <> fi_Size fileInfo ->
  HasBlob b blobinfo w
  = (false, -1, None, log (EvStat (blobpath b (Digest blobinfo) false)) w).
Proof.
  intros Hd Hplain H1 H2.
  rewrite (HasBlob_two_stats b blobinfo w Hd). cbv zeta. rewrite Hplain.
  apply Z.eqb_neq in H1, H2. rewrite H1, H2. reflexivity.
Qed.

(** X8: asking with the unknown size and asking with the right size agree:
    [HasBlob] finds a digest with size [s] when asked with size [-1] exactly
    when it finds it when asked with size [s]; the config flag of the
    descriptor plays no part. *)
Theorem HasBlob_unknown_size b w (d : digest.Digest) (s : int64)
  (c1 c2 : bool) :
  fst (HasBlob b {| Digest := d; Size := -1; IsConfig := c1 |} w)
    = (true, s, None)
  <-> fst (HasBlob b {| Digest := d; Size := s; IsConfig := c2 |} w)
    = (true, s, None).
Proof.
  destruct (String.eqb_spec d "") as [Hd|Hd].
  { rewrite !HasBlob_empty by exact Hd. split; discriminate. }
  rewrite !HasBlob_two_stats by exact Hd. cbv zeta. cbn [Digest Size].
  destruct (sys_stat (w_fs w) (blobpath b d false)) as [e1|[s1]].
  - destruct (e1 =? syscall.ENOENT); [|split; discriminate].
    destruct (sys_stat (w_fs w) (blobpath b d true)) as [e2|[s2]].
    + destruct (e2 =? syscall.ENOENT); split; discriminate.
    + cbn [fi_Size fst orb Z.eqb Pos.eqb]. split.
      * intros Heq. injection Heq as <-.
        now rewrite Z.eqb_refl, orb_true_r.
      * destruct ((s =? -1) || (s =? s2)); [|discriminate].
        intros Heq. injection Heq as <-. reflexivity.
  - cbn [fi_Size fst orb Z.eqb Pos.eqb]. split.
    + intros Heq. injection Heq as <-. now rewrite Z.eqb_refl, orb_true_r.
    + destruct ((s =? -1) || (s =? s1)); [|discriminate].
      intros Heq. injection Heq as <-. reflexivity.
Qed.

End HasBlobAnswers.

(** ** What [ClearCache] does, and what it leaves for [HasBlob] *)

Section ClearCacheAnswers.

Context {FS : Type} `{OS FS} {Remote Ctx SystemContext Named : Type}.

Implicit Types (b : BlobCache Remote Ctx SystemContext Named).
Implicit Types (blobinfo : BlobInfo) (w : World FS) (fs : FS).

(** [ClearCache], by the outcomes of the open and of the listing. *)
Lemma ClearCache_unfold b w :
  let dir := directory b in
  let w2 := log (EvReaddirnames dir (-1)) (log (EvOpen dir) w) in
  ClearCache b w =
  match sys_open (w_fs w) dir with
  | Some errno => (Some (PathError "open" dir errno), log (EvOpen dir) w)
  | None =>
      match sys_readdirnames (w_fs w) dir (-1) with
      | (_, Some e) =>
          (Some (withStack e "error reading directory %q" [ArgString dir]),
           log (EvClose dir) w2)
      | (names, None) =>
          (fst (ClearCache_names b names w2),
           log (EvClose dir) (snd (ClearCache_names b names w2)))
      end
  end.
Proof.
  cbv zeta.
  unfold ClearCache, bind, os_Open, File_Readdirnames, File_Close.
  destruct (sys_open (w_fs w) (directory b)) as [errno|]; [reflexivity|].
  cbn [log w_fs].
  destruct (sys_readdirnames (w_fs w) (directory b) (-1)) as [names [e|]];
    [reflexivity|].
  destruct (ClearCache_names b names _) as [r w3]. reflexivity.
Qed.

(** The loop removes the paths of a prefix of the names, in order. *)
Lemma ClearCache_names_trace b names w :
  exists pre post,
    names = (pre ++ post)%list
    /\ w_trace (snd (ClearCache_names b names w))
       = (w_trace w ++ map EvRemoveAll (paths b pre))%list.
Proof.
  revert w. induction names as [|name names IH]; intros w.
  - exists [], []. cbn. now rewrite app_nil_r.
  - cbn [ClearCache_names]. unfold bind, os_RemoveAll.
    destruct (sys_removeall (w_fs w) _) as [fs1 [e|]].
    + exists [name], names. split; reflexivity.
    + match goal with
      | |- context [ClearCache_names b names ?u] =>
          destruct (IH u) as (pre & post & -> & Htr)
      end.
      exists (name :: pre), post. split; [reflexivity|].
      rewrite Htr. cbn. now rewrite <- app_assoc.
Qed.

(** The loop returns nil exactly when every removal succeeds. *)
Lemma ClearCache_names_nil_iff b names w :
  fst (ClearCache_names b names w) = None
  <-> remove_all (w_fs w) (paths b names)
      = Some (w_fs (snd (ClearCache_names b names w))).
Proof.
  revert w. induction names as [|name names IH]; intros w.
  - cbn. split; reflexivity.
  - cbn [ClearCache_names paths map remove_all]. unfold bind, os_RemoveAll.
    destruct (sys_removeall (w_fs w) _) as [fs1 [e|]].
    + cbn. split; discriminate.
    + match goal with
      | |- context [ClearCache_names b names ?u] => exact (IH u)
      end.
Qed.

(** The loop fails with the wrapped error of the first failing removal. *)
Lemma ClearCache_names_error b names w (e : error) :
  fst (ClearCache_names b names w) = Some e ->
  exists pre name post fs1 fs2 e0,
    names = (pre ++ name :: post)%list
    /\ remove_all (w_fs w) (paths b pre) = Some fs1
    /\ sys_removeall fs1 (filepath_Join (directory b) name) = (fs2, Some e0)
    /\ e = clearing_error b e0.
Proof.
  revert w. induction names as [|name names IH]; intros w Herr.
  - discriminate.
  - cbn [ClearCache_names] in Herr. unfold bind, os_RemoveAll in Herr.
    destruct (sys_removeall (w_fs w) (filepath_Join (directory b) name))
      as [fs1 [e0|]] eqn:Hrm.
    + cbn in Herr. injection Herr as <-.
      exists [], name, names, (w_fs w), fs1, e0. auto.
    + destruct (IH _ Herr)
        as (pre & n & post & fa & fb & e0 & -> & Hall & Hf & ->).
      exists (name :: pre), n, post, fa, fb, e0.
      repeat split; auto. cbn. now rewrite Hrm.
Qed.

(** X9: [ClearCache] returns nil exactly when the directory opened, the
    listing succeeded and every listed entry was removed: a nil return means
    the file system left behind is the one in which all the listed paths
    have been removed, one after the other. *)
Theorem ClearCache_nil_iff b w :
  fst (ClearCache b w) = None
  <-> (sys_open (w_fs w) (directory b) = None
       /\ snd (sys_readdirnames (w_fs w) (directory b) (-1)) = None
       /\ remove_all (w_fs w)
            (paths b (fst (sys_readdirnames (w_fs w) (directory b) (-1))))
          = Some (w_fs (snd (ClearCache b w)))).
Proof.
  rewrite (ClearCache_unfold b w). cbv zeta.
  destruct (sys_open (w_fs w) (directory b)) as [errno|].
  { cbn. split; [discriminate|]. intros [Hopen _]. discriminate. }
  destruct (sys_readdirnames (w_fs w) (directory b) (-1)) as [names [e|]].
  { cbn. split; [discriminate|]. intros (_ & Hlist & _). discriminate. }
  cbn [fst snd log w_fs].
  rewrite ClearCache_names_nil_iff. cbn [log w_fs]. tauto.
Qed.

(** X10: every error of [ClearCache] has one of three origins: the open
    failed and the error is its [*PathError]; or the listing failed and the
    error is the listing's, wrapped under "error reading directory"; or the
    entries before some listed name were removed, the removal of that name
    failed, and the error is that removal's, wrapped under "clearing cache
    for" the image name. *)
Theorem ClearCache_error_origin b w (e : error) :
  fst (ClearCache b w) = Some e ->
  let dir := directory b in
  (exists errno,
     sys_open (w_fs w) dir = Some errno /\ e = PathError "open" dir errno)
  \/ (sys_open (w_fs w) dir = None
      /\ exists e0,
           snd (sys_readdirnames (w_fs w) dir (-1)) = Some e0
           /\ e = withStack e0 "error reading directory %q" [ArgString dir])
  \/ (sys_open (w_fs w) dir = None
      /\ snd (sys_readdirnames (w_fs w) dir (-1)) = None
      /\ exists pre name post fs1 fs2 e0,
           fst (sys_readdirnames (w_fs w) dir (-1))
             = (pre ++ name :: post)%list
           /\ remove_all (w_fs w) (paths b pre) = Some fs1
           /\ sys_removeall fs1 (filepath_Join dir name) = (fs2, Some e0)
           /\ e = clearing_error b e0).
Proof.
  intros Herr. cbv zeta.
  rewrite (ClearCache_unfold b w) in Herr. cbv zeta in Herr.
  destruct (sys_open (w_fs w) (directory b)) as [errno|].
  { left. exists errno. cbn in Herr. injection Herr as <-. auto. }
  destruct (sys_readdirnames (w_fs w) (directory b) (-1)) as [names [e0|]].
  { right. left. split; [reflexivity|]. exists e0.
    cbn in Herr. injection Herr as <-. auto. }
  right. right. cbn [fst snd] in *.
  split; [reflexivity|]. split; [reflexivity|].
  destruct (ClearCache_names_error b names _ e Herr)
    as (pre & n & post & fa & fb & e0 & Hn & Hall & Hf & He).
  exists pre, n, post, fa, fb, e0. auto.
Qed.

(** X11: the calls of [ClearCache]: it removes nothing but the paths of
    names that the listing returned, and only after a successful open and a
    successful listing; it never stats; and the directory it opened is
    closed by its last call. *)
Theorem ClearCache_calls b w :
  let dir := directory b in
  (forall path,
     In (EvRemoveAll path) (events_of (ClearCache b) w) ->
     sys_open (w_fs w) dir = None
     /\ snd (sys_readdirnames (w_fs w) dir (-1)) = None
     /\ exists name,
          In name (fst (sys_readdirnames (w_fs w) dir (-1)))
          /\ path = filepath_Join dir name)
  /\ forallb (fun ev => negb (is_stat ev)) (events_of (ClearCache b) w) = true
  /\ (sys_open (w_fs w) dir = None ->
      exists body,
        events_of (ClearCache b) w
        = (EvOpen dir :: body ++ [EvClose dir])%list).
Proof.
  cbv zeta. unfold events_of. rewrite (ClearCache_unfold b w). cbv zeta.
  destruct (sys_open (w_fs w) (directory b)) as [errno|].
  { cbn [snd]. rewrite events_log1. split; [|split].
    - intros path [Hin|[]]. discriminate.
    - reflexivity.
    - discriminate. }
  destruct (sys_readdirnames (w_fs w) (directory b) (-1)) as [names [e|]].
  { cbn. rewrite <- !app_assoc, skipn_length_app. cbn. split; [|split].
    - intros path [Hin|[Hin|[Hin|[]]]]; discriminate.
    - reflexivity.
    - intros _. exists [EvReaddirnames (directory b) (-1)]. reflexivity. }
  cbn [fst snd].
  destruct (ClearCache_names_trace b names
              (log (EvReaddirnames (directory b) (-1))
                 (log (EvOpen (directory b)) w)))
    as (pre & post & Hnames & Htr).
  cbn [log w_trace]. rewrite Htr. cbn [log w_trace].
  rewrite <- !app_assoc, skipn_length_app. cbn [app].
  split; [|split].
  - intros path Hin. split; [reflexivity|]. split; [reflexivity|].
    destruct Hin as [Hin|[Hin|Hin]]; try discriminate.
    apply in_app_or in Hin. destruct Hin as [Hin|[Hin|[]]]; [|discriminate].
    unfold paths in Hin. rewrite map_map in Hin. apply in_map_iff in Hin.
    destruct Hin as (name & Heq & Hin). exists name. split.
    + rewrite Hnames. apply in_or_app. now left.
    + now injection Heq as <-.
  - cbn. rewrite forallb_app. cbn. rewrite andb_true_r.
    unfold paths. rewrite map_map. apply forallb_forall.
    intros ev Hin. apply in_map_iff in Hin. destruct Hin as (n & <- & _).
    reflexivity.
  - intros _.
    exists (EvReaddirnames (directory b) (-1)
              :: map EvRemoveAll (paths b pre)).
    reflexivity.
Qed.

(** After a nil return, all the listed paths have been removed. *)
Lemma ClearCache_nil_removed b w :
  fst (ClearCache b w) = None ->
  remove_all (w_fs w)
    (paths b (fst (sys_readdirnames (w_fs w) (directory b) (-1))))
  = Some (w_fs (snd (ClearCache b w))).
Proof.
  rewrite (ClearCache_unfold b w). cbv zeta.
  destruct (sys_open (w_fs w) (directory b)) as [errno|]; [discriminate|].
  destruct (sys_readdirnames (w_fs w) (directory b) (-1)) as [names [e|]];
    [discriminate|].
  cbn [fst snd log w_fs]. intros Hnil.
  apply ClearCache_names_nil_iff in Hnil. exact Hnil.
Qed.

(** Both paths of a digest out of sight: [HasBlob] does not find it. *)
Lemma HasBlob_out_of_sight b blobinfo w :
  (forall isConfig,
     visible (w_fs w) (blobpath b (Digest blobinfo) isConfig) = false) ->
  exists err, fst (HasBlob b blobinfo w) = (false, -1, err).
Proof.
  intros Hgone.
  destruct (String.eqb_spec (Digest blobinfo) "") as [Hd|Hd].
  { rewrite (HasBlob_empty b blobinfo w Hd). eexists. reflexivity. }
  rewrite (HasBlob_two_stats b blobinfo w Hd). cbv zeta.
  pose proof (Hgone false) as Hp. pose proof (Hgone true) as Hc.
  unfold visible in Hp, Hc.
  destruct (sys_stat (w_fs w) (blobpath b (Digest blobinfo) false))
    as [e1|fi1]; [|discriminate].
  destruct (e1 =? syscall.ENOENT); [|eexists; reflexivity].
  destruct (sys_stat (w_fs w) (blobpath b (Digest blobinfo) true))
    as [e2|fi2]; [|discriminate].
  destruct (e2 =? syscall.ENOENT); eexists; reflexivity.
Qed.

End ClearCacheAnswers.

Section ClearThenProbe.

Context {FS : Type} `{OSLaws FS} {Remote Ctx SystemContext Named : Type}.

Implicit Types (b : BlobCache Remote Ctx SystemContext Named).
Implicit Types (blobinfo : BlobInfo) (w : World FS).

(** X12: after a [ClearCache] that returned nil, [HasBlob] finds no digest
    whose two paths were each among the listed entries or already out of
    sight: the answer is "not found" with size [-1].  This holds on every
    file system where a successful removal makes the path disappear and no
    removal brings a path back. *)
Theorem ClearCache_then_HasBlob b blobinfo w :
  fst (ClearCache b w) = None ->
  (forall isConfig,
     In (blobpath b (Digest blobinfo) isConfig)
        (paths b (fst (sys_readdirnames (w_fs w) (directory b) (-1))))
     \/ visible (w_fs w) (blobpath b (Digest blobinfo) isConfig) = false) ->
  exists err,
    fst (HasBlob b blobinfo (snd (ClearCache b w))) = (false, -1, err).
Proof.
  intros Hnil Hlisted.
  pose proof (ClearCache_nil_removed b w Hnil) as Hall.
  apply HasBlob_out_of_sight. intros isConfig.
  destruct (Hlisted isConfig) as [Hin|Hgone].
  - exact (remove_all_gone _ _ _ _ Hall Hin).
  - exact (remove_all_keeps_gone _ _ _ _ Hgone Hall).
Qed.

End ClearThenProbe.

(** ** Construction and the filename scheme *)

Section ConstructionAnswers.

Context {FS : Type} `{OS FS} {Remote Ctx SystemContext Named : Type}.

Implicit Types (b : BlobCache Remote Ctx SystemContext Named).
Implicit Types (ref : ImageReference Remote Ctx SystemContext Named).
Implicit Types (w : World FS).

(** X13: [NewBlobCache] returns a store or an error, never both and never
    neither; a store it returns has a non-empty directory and one of the
    three recognised compression values, and an error means that the
    directory was empty or the compression value unrecognised. *)
Theorem NewBlobCache_outcome ref (dir : string) (c : LayerCompression) w :
  match fst (NewBlobCache ref dir c w) with
  | (Some b, None) =>
      directory b <> ""
      /\ (compress b = Compress \/ compress b = Decompress
          \/ compress b = PreserveOriginal)
  | (None, Some _) =>
      dir = ""
      \/ (c <> Compress /\ c <> Decompress /\ c <> PreserveOriginal)
  | (Some _, Some _) | (None, None) => False
  end.
Proof.
  unfold NewBlobCache.
  destruct (String.eqb_spec dir "") as [Hdir|Hdir]; [now left|].
  destruct (Z.eqb_spec c Compress) as [Hc|Hc]; [cbn; auto|].
  destruct (Z.eqb_spec c Decompress) as [Hd|Hd]; [cbn; auto|].
  destruct (Z.eqb_spec c PreserveOriginal) as [Hp|Hp]; cbn; auto.
Qed.

(** X14: a store built by [NewBlobCache] around a reference answers for
    that reference: its directory is the one given, each identity method
    and [DeleteImage] return what the reference given at construction
    returns, and its image name, the one [ClearCache] reports in its error,
    is the image name of that reference. *)
Theorem NewBlobCache_wraps ref (dir : string) (c : LayerCompression) w b
  (err : option error) :
  fst (NewBlobCache ref dir c w) = (Some b, err) ->
  Directory b = dir
  /\ Transport b = ref_Transport ref
  /\ StringWithinTransport b = ref_StringWithinTransport ref
  /\ DockerReference b = ref_DockerReference ref
  /\ PolicyConfigurationIdentity b = ref_PolicyConfigurationIdentity ref
  /\ PolicyConfigurationNamespaces b = ref_PolicyConfigurationNamespaces ref
  /\ (forall (ctx : Ctx) (sys : option SystemContext) (remote : Remote),
        DeleteImage b ctx sys remote = ref_DeleteImage ref ctx sys remote)
  /\ transports_ImageName (BlobCache_ImageReference b)
     = transports_ImageName ref.
Proof.
  unfold NewBlobCache.
  destruct (String.eqb dir ""); [discriminate|].
  destruct ((c =? Compress) || (c =? Decompress) || (c =? PreserveOriginal));
    [|discriminate].
  cbn. intros Heq. injection Heq as <- <-. repeat split.
Qed.

End ConstructionAnswers.

Lemma string_app_length (s t : string) :
  String.length (s ++ t) = (String.length s + String.length t)%nat.
Proof. induction s as [|c s IH]; cbn; [reflexivity|now rewrite IH]. Qed.

(** X15: on all digests, well-formed or not: within one form the filename
    determines the digest; the plain and the config filename of one digest
    differ; and the filename is empty only for the plain form of the empty
    digest. *)
Theorem makeFilename_forms (d1 d2 : digest.Digest) (c : bool) :
  (d1 <> d2 -> makeFilename d1 c <> makeFilename d2 c)
  /\ makeFilename d1 true <> makeFilename d1 false
  /\ (makeFilename d1 c = "" <-> d1 = "" /\ c = false).
Proof.
  unfold makeFilename, digest.String. split; [|split].
  - intros Hne Heq. apply Hne.
    destruct c; [exact (string_app_inv_tail _ _ _ Heq)|exact Heq].
  - intros Heq. apply (f_equal String.length) in Heq.
    rewrite string_app_length in Heq. cbn in Heq. lia.
  - destruct c.
    + split.
      * intros Heq. apply (f_equal String.length) in Heq.
        rewrite string_app_length in Heq. cbn in Heq. lia.
      * intros [_ Hc]. discriminate.
    + split; [auto|]. now intros [-> _].
Qed.

(** ** The further properties on the fixtures *)

(** X1 on the fixture: a digest of which the cache holds nothing. *)
Lemma HasBlob_absent_witness :
  fst (HasBlob Fixture.cache
         {| Digest := Scenario.absent_digest; Size := 3; IsConfig := false |}
         Fixture.healthy) = (false, -1, None)
  /\ events_of (HasBlob Fixture.cache
                  {| Digest := Scenario.absent_digest; Size := 3;
                     IsConfig := false |}) Fixture.healthy
     = [EvStat "/cache/sha256:00"; EvStat "/cache/sha256:00.config"].
Proof.
  refine (HasBlob_absent Fixture.cache
           {| Digest := Scenario.absent_digest; Size := 3; IsConfig := false |}
           Fixture.healthy _ _ _).
  - discriminate.
  - reflexivity.
  - reflexivity.
Defined.

(** X2 on the fixture: the digest stored in its config form only, asked
    for with its size. *)
Lemma HasBlob_config_form_witness :
  fst (HasBlob Fixture.cache
         {| Digest := Scenario.config_digest; Size := 9; IsConfig := false |}
         Scenario.config_only) = (true, 9, None).
Proof.
  refine (HasBlob_config_form Fixture.cache
           {| Digest := Scenario.config_digest; Size := 9; IsConfig := false |}
           Scenario.config_only {| fi_Size := 9 |} _ _ _ _).
  - discriminate.
  - reflexivity.
  - reflexivity.
  - right. reflexivity.
Defined.

(** X3 on the fixture: the layer found with five bytes. *)
Lemma HasBlob_found_sound_witness :
  exists isConfig,
    sys_stat (w_fs Fixture.healthy)
      (blobpath Fixture.cache Fixture.layer isConfig) = inr {| fi_Size := 5 |}.
Proof.
  apply (HasBlob_found_sound Fixture.cache
           {| Digest := Fixture.layer; Size := -1; IsConfig := false |}
           Fixture.healthy 5 None).
  reflexivity.
Defined.

(** X5 on the fixture: the config path that cannot be stat-ed. *)
Lemma HasBlob_error_origin_witness :
  exists isConfig errno,
    sys_stat (w_fs Scenario.config_denied)
      (blobpath Fixture.cache Scenario.config_digest isConfig) = inl errno
    /\ errno <> syscall.ENOENT
    /\ withStack (PathError "stat" "/cache/sha256:ef.config" syscall.EIO)
         "checking size" []
       = withStack
           (PathError "stat"
              (blobpath Fixture.cache Scenario.config_digest isConfig) errno)
           "checking size" [].
Proof.
  apply (HasBlob_error_origin Fixture.cache
           {| Digest := Scenario.config_digest; Size := 9; IsConfig := true |}
           Scenario.config_denied false (-1)).
  reflexivity.
Defined.

(** X6 on the fixture: one stat for the layer, which is there. *)
Lemma HasBlob_probe_order_witness :
  events_of (HasBlob Fixture.cache
               {| Digest := Fixture.layer; Size := 5; IsConfig := false |})
    Fixture.healthy
  = [EvStat "/cache/sha256:ab"].
Proof.
  refine (HasBlob_probe_order Fixture.cache
           {| Digest := Fixture.layer; Size := 5; IsConfig := false |}
           Fixture.healthy _).
  discriminate.
Defined.

(** X7 on the fixture: the layer of five bytes asked for with seven. *)
Lemma HasBlob_plain_mismatch_witness :
  HasBlob Fixture.cache
    {| Digest := Fixture.layer; Size := 7; IsConfig := false |}
    Fixture.healthy
  = (false, -1, None, log (EvStat "/cache/sha256:ab") Fixture.healthy).
Proof.
  refine (HasBlob_plain_mismatch Fixture.cache
           {| Digest := Fixture.layer; Size := 7; IsConfig := false |}
           Fixture.healthy {| fi_Size := 5 |} _ _ _ _).
  - discriminate.
  - reflexivity.
  - discriminate.
  - discriminate.
Defined.

(** X10 on the fixture: the sweep that stops at the second entry. *)
Lemma ClearCache_error_origin_witness :
  (exists errno,
     sys_open (w_fs Fixture.remove_denied) "/cache" = Some errno
     /\ withStack
          (PathError "unlinkat" "/cache/sha256:ab.config" syscall.EPERM)
          "clearing cache for %q" [ArgString "docker://busybox:latest"]
        = PathError "open" "/cache" errno)
  \/ (sys_open (w_fs Fixture.remove_denied) "/cache" = None
      /\ exists e0,
           snd (sys_readdirnames (w_fs Fixture.remove_denied) "/cache" (-1))
             = Some e0
           /\ withStack
                (PathError "unlinkat" "/cache/sha256:ab.config" syscall.EPERM)
                "clearing cache for %q" [ArgString "docker://busybox:latest"]
              = withStack e0 "error reading directory %q"
                  [ArgString "/cache"])
  \/ (sys_open (w_fs Fixture.remove_denied) "/cache" = None
      /\ snd (sys_readdirnames (w_fs Fixture.remove_denied) "/cache" (-1))
         = None
      /\ exists pre name post fs1 fs2 e0,
           fst (sys_readdirnames (w_fs Fixture.remove_denied) "/cache" (-1))
             = (pre ++ name :: post)%list
           /\ remove_all (w_fs Fixture.remove_denied)
                (paths Fixture.cache pre) = Some fs1
           /\ sys_removeall fs1 (filepath_Join "/cache" name) = (fs2, Some e0)
           /\ withStack
                (PathError "unlinkat" "/cache/sha256:ab.config" syscall.EPERM)
                "clearing cache for %q" [ArgString "docker://busybox:latest"]
              = clearing_error Fixture.cache e0).
Proof.
  apply (ClearCache_error_origin Fixture.cache Fixture.remove_denied).
  reflexivity.
Defined.

(** X11 on the fixture: a removal in the clean sweep is that of a listed
    name. *)
Lemma ClearCache_calls_witness :
  exists name,
    In name (fst (sys_readdirnames (w_fs Fixture.healthy) "/cache" (-1)))
    /\ "/cache/sha256:cd" = filepath_Join "/cache" name.
Proof.
  apply (proj1 (ClearCache_calls Fixture.cache Fixture.healthy)
           "/cache/sha256:cd").
  vm_compute. right. right. right. right. left. reflexivity.
Defined.

(** X12 on the fixture: the layer, stored in both forms, after the clean
    sweep. *)
Lemma ClearCache_then_HasBlob_witness :
  exists err,
    fst (HasBlob Fixture.cache
           {| Digest := Fixture.layer; Size := -1; IsConfig := false |}
           (snd (ClearCache Fixture.cache Fixture.healthy)))
    = (false, -1, err).
Proof.
  apply (ClearCache_then_HasBlob Fixture.cache
           {| Digest := Fixture.layer; Size := -1; IsConfig := false |}
           Fixture.healthy).
  - reflexivity.
  - intros [|]; left; vm_compute; auto.
Defined.

(** X14 on the fixture: the cache built around the busybox reference. *)
Lemma NewBlobCache_wraps_witness :
  Directory Fixture.cache = "/cache"
  /\ transports_ImageName (BlobCache_ImageReference Fixture.cache)
     = transports_ImageName Fixture.busybox.
Proof.
  pose proof (NewBlobCache_wraps Fixture.busybox "/cache" Compress
                Fixture.healthy Fixture.cache None eq_refl)
    as (Hdir & _ & _ & _ & _ & _ & _ & Hname).
  split; [exact Hdir|exact Hname].
Defined.

(** X15 on the fixture: two digests in the config form. *)
Lemma makeFilename_forms_witness :
  makeFilename Fixture.layer true <> makeFilename Fixture.other true.
Proof.
  apply (proj1 (makeFilename_forms Fixture.layer Fixture.other true)).
  discriminate.
Defined.
